(** * Admin crawl-control API: job registry, status polling, ad-hoc crawls

    A shallow embedding of the three admin route handlers of the platform

      - [app/api/admin/crawl/start/route.ts]   (operation trigger, owns [activeCrawls])
      - [app/api/admin/crawl/status/route.ts]  (status query)
      - [app/api/admin/crawl/custom/route.ts]  (ad-hoc single-URL crawl)

    and of the [aws_content] table of the database schema, followed by the
    properties of the crawl-orchestration specification that concern them.

    Modelling conventions.
    - The module-level [Map] [activeCrawls] is a [gmap string CrawlJob].  The
      handlers fetch a record, assign its fields and [set] it back under the
      same key; the record is never shared under a second key, so the
      update-in-place is an [insert] at that key.
    - Handlers are state-passing functions [World -> Response * World].
    - What Node.js supplies is an input of the model: the value returned by
      [uuidv4()], the chunks a child process writes, its exit code, and the
      moment a timer callback runs.  Time is a logical clock in milliseconds.
    - A child process emits ['data'] events only before its ['close'] event
      and emits ['close'] once; a [setTimeout] callback never runs before
      its delay has elapsed.  The [step] function refuses other events.
    - A request carries the members of its parsed JSON body as optional
      strings, and [spawn] succeeds: the handlers' catch-all answer (500)
      to an exception of the platform is not part of the model. *)

From Stdlib Require Import ZArith Lia Bool Ascii String.
From stdpp Require Import gmap strings list fin_maps pretty.

(* stdpp's set tactics clear hypotheses that may be gone already. *)
Set Warnings "-clear-no-such-hyp".

Local Open Scope string_scope.
Local Open Scope Z_scope.
Local Open Scope list_scope.

(** ** JavaScript string and array primitives used by the handlers *)

(** [s.includes(sub)] *)
Fixpoint includes (s sub : string) : bool :=
  String.prefix sub s ||
  match s with
  | EmptyString => false
  | String _ s' => includes s' sub
  end.

(** [arr.includes(x)] on an array of strings *)
Definition array_includes (arr : list string) (x : string) : bool :=
  existsb (String.eqb x) arr.

(** A [string] holds the UTF-8 encoding of a JavaScript string; [bytes]
    writes one down by its byte values. *)
Definition bytes (l : list nat) : string :=
  fold_right (fun n s => String (ascii_of_nat n) s) EmptyString l.

(** The characters [trim()] removes, the white space and the line
    terminators of ECMAScript, in UTF-8: U+0009 to U+000D, U+0020, U+00A0,
    U+1680, U+2000 to U+200A, U+2028, U+2029, U+202F, U+205F, U+3000 and
    U+FEFF. *)
Definition white_space : list string :=
  map bytes
    [ [9%nat]; [10%nat]; [11%nat]; [12%nat]; [13%nat]; [32%nat];
      [194; 160]%nat;
      [225; 154; 128]%nat;
      [226; 128; 128]%nat; [226; 128; 129]%nat; [226; 128; 130]%nat;
      [226; 128; 131]%nat; [226; 128; 132]%nat; [226; 128; 133]%nat;
      [226; 128; 134]%nat; [226; 128; 135]%nat; [226; 128; 136]%nat;
      [226; 128; 137]%nat; [226; 128; 138]%nat;
      [226; 128; 168]%nat; [226; 128; 169]%nat; [226; 128; 175]%nat;
      [226; 129; 159]%nat;
      [227; 128; 128]%nat;
      [239; 187; 191]%nat ].

(** [s] without the prefix [p], when it starts with it. *)
Fixpoint strip_prefix (p s : string) : option string :=
  match p, s with
  | EmptyString, _ => Some s
  | String a p', String b s' => if Ascii.eqb a b then strip_prefix p' s' else None
  | String _ _, EmptyString => None
  end.

(** [s] without its first character, when that is white space. No encoding
    of [white_space] is a prefix of another, so at most one applies. *)
Definition skip_white_space (s : string) : option string :=
  head (omap (fun w => strip_prefix w s) white_space).

(** [trimStart] skips white space as long as there is some; every skip
    takes at least one byte, so [String.length s] rounds are enough. *)
Fixpoint trimStart_from (n : nat) (s : string) : string :=
  match n with
  | O => s
  | S n' =>
      match skip_white_space s with
      | Some r => trimStart_from n' r
      | None => s
      end
  end.

Definition trimStart (s : string) : string := trimStart_from (String.length s) s.

(** [trimEnd], from the right: what is left of the tail is dropped together
    with the byte before it when the two are one white-space character. *)
Fixpoint trimEnd (s : string) : string :=
  match s with
  | EmptyString => EmptyString
  | String c s' =>
      let r := String c (trimEnd s') in
      if array_includes white_space r then "" else r
  end.

Definition trim (s : string) : string := trimEnd (trimStart s).

(** Truthiness of a possibly missing string: [undefined], [null] and [""]
    are falsy. *)
Definition truthy (o : option string) : bool :=
  match o with
  | Some s => negb (String.eqb s "")
  | None => false
  end.

(** ** Responses *)

Inductive JobStatus := running | completed | failed.

#[global] Instance JobStatus_eq_dec : EqDecision JobStatus.
Proof. solve_decision. Defined.

Module Stats.
Record t := mk {
  total_processed : Z;
  successful : Z;
  failed : Z;
  duplicates : Z
}.
End Stats.

Record CrawlJob := mkJob {
  jobId : string;
  operation : string;
  status : JobStatus;
  progress : Z;
  message : string;
  stats : option Stats.t;
  error : option string
}.

(** The [data] member of a successful ad-hoc crawl. *)
Inductive CrawlData :=
| DataParsed (json : string)      (* JSON.parse(jsonMatch[0]) *)
| DataEmpty                       (* {} *)
| DataOutput (msg output : string). (* { message, output: stdout } *)

Inductive Payload :=
| ErrorBody (err : string)                  (* { error } *)
| ErrorDetails (err details : string)        (* { error, details } *)
| Started (id msg : string)                  (* { success: true, jobId, message } *)
| Snapshot (job : CrawlJob)                  (* { success: true, jobId, ..., error } *)
| Crawled (msg : string) (data : CrawlData)  (* { success: true, message, data } *)
| CrawlFailed (err : string).                (* { success: false, error } *)

Record Response := mkResponse { code : Z; payload : Payload }.

(** [NextResponse.json(body)] answers 200 unless a status is given. *)
Definition json (p : Payload) : Response := mkResponse 200 p.
Definition json_status (p : Payload) (c : Z) : Response := mkResponse c p.

(** ** Authentication and the admin check (identical in the three routes) *)

Record Profile := mkProfile { role : option string; email : option string }.

(** What the Supabase client returns for the request: the outcome of
    [auth.getUser()] and the row of [user_profiles] selected for the user. *)
Record Session := mkSession {
  authError : bool;
  user : option string;
  profile : option Profile
}.

(** [profile?.role === "admin" || profile?.email?.includes("admin")] *)
Definition isAdmin (p : option Profile) : bool :=
  match p with
  | None => false
  | Some p =>
      match role p with
      | Some r => String.eqb r "admin"
      | None => false
      end
      ||
      match email p with
      | Some e => includes e "admin"
      | None => false
      end
  end.

Definition unauthorized : Response := json_status (ErrorBody "Unauthorized") 401.
Definition forbidden : Response :=
  json_status (ErrorBody "Forbidden: Admin access required") 403.

(** The two early returns that open every handler; [None] lets the request
    through. *)
Definition authorize (s : Session) : option Response :=
  if authError s || negb (bool_decide (is_Some (user s))) then Some unauthorized
  else if negb (isAdmin (profile s)) then Some forbidden
  else None.

(** ** The job registry and its environment *)

Inductive Worker := Alive | Exited.

#[global] Instance Worker_eq_dec : EqDecision Worker.
Proof. solve_decision. Defined.

Record World := mkWorld {
  activeCrawls : gmap string CrawlJob;  (* the module-level Map *)
  workers : gmap string Worker;         (* orchestrator processes, by the jobId their handlers close over *)
  timers : list (Z * string);           (* pending clean-up callbacks: due time, jobId *)
  now : Z;                              (* clock, ms *)
  spawned : list (list string);         (* argv of every process spawned *)
  statusRouteLoaded : bool              (* the status route has cached its reference to the Map *)
}.

Definition init : World := mkWorld ∅ ∅ [] 0 [] false.

Definition set_crawls (m : gmap string CrawlJob) (w : World) : World :=
  mkWorld m (workers w) (timers w) (now w) (spawned w) (statusRouteLoaded w).

Definition RETENTION_MS : Z := 10 * 60 * 1000.

Module StartRoute.

Record Request := mkRequest {
  session : Session;
  body : option string   (* the [operation] member of the JSON body *)
}.

Definition operations : list string :=
  ["daily-update"; "full-crawl"; "process-content"].

Definition invalid_operation : Response :=
  json_status
    (ErrorBody "Invalid operation. Must be: daily-update, full-crawl, or process-content")
    400.

(** [POST]: the synchronous part of the handler, up to its [return].
    [uuid] is what [uuidv4()] returns. *)
Definition POST (req : Request) (uuid : string) (w : World) : Response * World :=
  match authorize (session req) with
  | Some r => (r, w)
  | None =>
      match body req with
      | Some op =>
          if negb (truthy (Some op)) || negb (array_includes operations op)
          then (invalid_operation, w)
          else
            let job := mkJob uuid op running 0 ("Starting " +:+ op +:+ "...") None None in
            (json (Started uuid ("Started " +:+ op +:+ " operation")),
             mkWorld (<[uuid := job]> (activeCrawls w))
                     (<[uuid := Alive]> (workers w))
                     (timers w) (now w)
                     (spawned w ++ [["python"; "orchestrator.py"; "--operation"; op]])
                     (statusRouteLoaded w))
      | None => (invalid_operation, w)
      end
  end.

(** [pythonProcess.stdout.on("data", ...)] *)
Definition on_stdout (id data : string) (w : World) : World :=
  let msg := trim data in
  match activeCrawls w !! id with
  | Some crawlJob =>
      let crawlJob' :=
        if includes msg "Crawling AWS Blogs" then
          mkJob (jobId crawlJob) (operation crawlJob) (status crawlJob)
                25 "Crawling AWS Blogs..." (stats crawlJob) (error crawlJob)
        else if includes msg "Crawling AWS YouTube" then
          mkJob (jobId crawlJob) (operation crawlJob) (status crawlJob)
                50 "Crawling YouTube videos..." (stats crawlJob) (error crawlJob)
        else if includes msg "Crawling AWS Documentation" then
          mkJob (jobId crawlJob) (operation crawlJob) (status crawlJob)
                75 "Crawling AWS Documentation..." (stats crawlJob) (error crawlJob)
        else if includes msg "Processing content" then
          mkJob (jobId crawlJob) (operation crawlJob) (status crawlJob)
                90 "Processing content with AI..." (stats crawlJob) (error crawlJob)
        else crawlJob in
      set_crawls (<[id := crawlJob']> (activeCrawls w)) w
  | None => w
  end.

(** [pythonProcess.stderr.on("data", ...)] only writes to the console. *)
Definition on_stderr (id data : string) (w : World) : World := w.

(** Rendering of the exit code in the template string; [null] when the
    process was ended by a signal. *)
Definition show_code (c : option Z) : string :=
  match c with
  | Some z => pretty z
  | None => "null"
  end.

(** [pythonProcess.on("close", ...)] *)
Definition on_close (id : string) (c : option Z) (w : World) : World :=
  let crawls :=
    match activeCrawls w !! id with
    | Some crawlJob =>
        let crawlJob' :=
          if bool_decide (c = Some 0) then
            mkJob (jobId crawlJob) (operation crawlJob) completed 100
                  "Crawl completed successfully!"
                  (Some (Stats.mk 0 0 0 0)) (error crawlJob)
          else
            mkJob (jobId crawlJob) (operation crawlJob) failed 0
                  "Crawl failed" (stats crawlJob)
                  (Some ("Process exited with code " +:+ show_code c)) in
        <[id := crawlJob']> (activeCrawls w)
    | None => activeCrawls w
    end in
  mkWorld crawls (workers w) (timers w ++ [(now w + RETENTION_MS, id)]) (now w)
          (spawned w) (statusRouteLoaded w).

(** The callback given to [setTimeout] in the close handler. *)
Definition on_cleanup (id : string) (w : World) : World :=
  set_crawls (delete id (activeCrawls w)) w.

End StartRoute.

Module StatusRoute.

Record Request := mkRequest {
  session : Session;
  jobIdParam : option string   (* searchParams.get("jobId") *)
}.

(** [getActiveCrawls]: the first call imports the start route and keeps
    the reference to its Map. *)
Definition getActiveCrawls (w : World) : gmap string CrawlJob * World :=
  (activeCrawls w,
   mkWorld (activeCrawls w) (workers w) (timers w) (now w) (spawned w) true).

Definition GET (req : Request) (w : World) : Response * World :=
  match authorize (session req) with
  | Some r => (r, w)
  | None =>
      if negb (truthy (jobIdParam req)) then
        (json_status (ErrorBody "Missing jobId parameter") 400, w)
      else
        let id := default "" (jobIdParam req) in
        let '(crawls, w') := getActiveCrawls w in
        match crawls !! id with
        | None => (json_status (ErrorBody "Job not found or expired") 404, w')
        | Some crawlJob => (json (Snapshot crawlJob), w')
        end
  end.

End StatusRoute.

(** ** Events of the job registry *)

Inductive Event :=
| EvStart (req : StartRoute.Request) (uuid : string)   (* a request to the start route *)
| EvStdout (id data : string)                          (* the worker of [id] writes to stdout *)
| EvStderr (id data : string)                          (* ... to stderr *)
| EvClose (id : string) (c : option Z)                 (* the worker of [id] has ended *)
| EvCleanup (id : string)                              (* the clean-up timer of [id] runs *)
| EvTick (dt : Z)                                      (* [dt] ms pass *)
| EvStatus (req : StatusRoute.Request).                (* a request to the status route *)

(** Removes the first pending timer of [id] that is due at time [t]. *)
Fixpoint take_timer (id : string) (t : Z) (l : list (Z * string))
  : option (list (Z * string)) :=
  match l with
  | [] => None
  | (d, i) :: l' =>
      if String.eqb i id && (d <=? t) then Some l'
      else cons (d, i) <$> take_timer id t l'
  end.

Definition set_worker (id : string) (s : Worker) (w : World) : World :=
  mkWorld (activeCrawls w) (<[id := s]> (workers w)) (timers w) (now w)
          (spawned w) (statusRouteLoaded w).

Definition set_timers (l : list (Z * string)) (w : World) : World :=
  mkWorld (activeCrawls w) (workers w) l (now w) (spawned w) (statusRouteLoaded w).

Definition advance (dt : Z) (w : World) : World :=
  mkWorld (activeCrawls w) (workers w) (timers w) (now w + dt) (spawned w)
          (statusRouteLoaded w).

Definition alive (id : string) (w : World) : bool :=
  bool_decide (workers w !! id = Some Alive).

(** One event; [None] when the platform cannot produce it in [w]. *)
Definition step (w : World) (e : Event) : option World :=
  match e with
  | EvStart req uuid =>
      if bool_decide (workers w !! uuid = None)
      then Some (StartRoute.POST req uuid w).2 else None
  | EvStdout id data =>
      if alive id w then Some (StartRoute.on_stdout id data w) else None
  | EvStderr id data =>
      if alive id w then Some (StartRoute.on_stderr id data w) else None
  | EvClose id c =>
      if alive id w then Some (set_worker id Exited (StartRoute.on_close id c w))
      else None
  | EvCleanup id =>
      match take_timer id (now w) (timers w) with
      | Some l => Some (StartRoute.on_cleanup id (set_timers l w))
      | None => None
      end
  | EvTick dt => if 0 <=? dt then Some (advance dt w) else None
  | EvStatus req => Some (StatusRoute.GET req w).2
  end.

Fixpoint run (w : World) (evs : list Event) : option World :=
  match evs with
  | [] => Some w
  | e :: evs' =>
      match step w e with
      | Some w' => run w' evs'
      | None => None
      end
  end.

(** The start route accepts the request (it passes the admin check and names a
    recognised operation). *)
Definition accepts (req : StartRoute.Request) : bool :=
  match authorize (StartRoute.session req), StartRoute.body req with
  | None, Some op => array_includes StartRoute.operations op
  | _, _ => false
  end.

(** [id] was handed out by an accepted start request of the trace. *)
Definition issued_in (evs : list Event) (id : string) : bool :=
  existsb (fun e => match e with
                    | EvStart req u => String.eqb u id && accepts req
                    | _ => false
                    end) evs.

(** The clean-up timer of [id] has run in the trace. *)
Definition purged_in (evs : list Event) (id : string) : bool :=
  existsb (fun e => match e with
                    | EvCleanup i => String.eqb i id
                    | _ => false
                    end) evs.

(** What a client polling as an administrator sees for [id]. *)
Definition admin : Session :=
  mkSession false (Some "u-1") (Some (mkProfile (Some "admin") None)).

Definition poll (id : string) (w : World) : Response :=
  (StatusRoute.GET (StatusRoute.mkRequest admin (Some id)) w).1.

(** The progress values a client polling [id] after every event of the
    trace reads, while the job is answered. *)
Fixpoint observe (id : string) (w : World) (evs : list Event) : list (JobStatus * Z) :=
  match evs with
  | [] => []
  | e :: evs' =>
      match step w e with
      | Some w' =>
          match activeCrawls w' !! id with
          | Some job => (status job, progress job) :: observe id w' evs'
          | None => observe id w' evs'
          end
      | None => []
      end
  end.

Definition milestones : list Z := [0; 25; 50; 75; 90].

(** The order of job states: [running] may become anything, a terminal
    state stays what it is. *)
Definition status_le (a b : JobStatus) : bool :=
  match a, b with
  | running, _ => true
  | completed, completed => true
  | failed, failed => true
  | _, _ => false
  end.

(** ** The ad-hoc crawl route *)

Module CustomRoute.

Record Request := mkRequest {
  session : Session;
  type : option string;   (* body.type *)
  url : option string     (* body.url *)
}.

(** What the crawler process does, stamped with the time (ms after the
    spawn) at which Node delivers it. *)
Inductive ChildEvent :=
| Stdout (chunk : string)
| Stderr (chunk : string)
| Close (c : option Z).

Record Result := mkResult {
  success : bool;
  data : option CrawlData;
  failure : option string   (* the [error] member *)
}.

(** The state the promise executor closes over. *)
Record Promise := mkPromise {
  stdout : string;
  stderr : string;
  settled : option (Z * Result);  (* first [resolve]: when and with what *)
  closed : bool;                  (* the process has ended *)
  killed : bool                   (* [kill()] reached a live process *)
}.

Definition TIMEOUT_MS : Z := 2 * 60 * 1000.

Definition types : list string := ["blog"; "video"; "playlist"].

(** The [switch]: script and arguments for a type. *)
Definition crawler (ty u : string) : option (string * list string) :=
  if String.eqb ty "blog" then Some ("crawlers/aws_blogs_crawler.py", ["--url"; u])
  else if String.eqb ty "video" then Some ("crawlers/aws_youtube_crawler.py", ["--video-url"; u])
  else if String.eqb ty "playlist" then Some ("crawlers/aws_youtube_crawler.py", ["--playlist-url"; u])
  else None.

(** [stdout.match(/\{[\s\S]*\}/)]: from the first opening brace to the last
    closing brace after it. *)
Fixpoint from_first_brace (s : string) : option string :=
  match s with
  | EmptyString => None
  | String c s' => if Ascii.eqb c "{" then Some s else from_first_brace s'
  end.

Fixpoint upto_last_brace (s : string) : option string :=
  match s with
  | EmptyString => None
  | String c s' =>
      match upto_last_brace s' with
      | Some r => Some (String c r)
      | None => if Ascii.eqb c "}" then Some (String c EmptyString) else None
      end
  end.

Definition jsonMatch (out : string) : option string :=
  from_first_brace out ≫= upto_last_brace.

(** A promise keeps its first resolution. *)
Definition resolve (t : Z) (r : Result) (p : Promise) : Promise :=
  match settled p with
  | Some _ => p
  | None => mkPromise (stdout p) (stderr p) (Some (t, r)) (closed p) (killed p)
  end.

Section Handler.

(** Two built-ins of the platform are parameters: whether [new URL(s)]
    succeeds and whether [JSON.parse(s)] succeeds. *)
Variable URL_ok : string -> bool.
Variable JSON_ok : string -> bool.

Definition on_close (t : Z) (c : option Z) (p : Promise) : Promise :=
  let p := mkPromise (stdout p) (stderr p) (settled p) true (killed p) in
  if bool_decide (c = Some 0) then
    match jsonMatch (stdout p) with
    | Some m =>
        if JSON_ok m then resolve t (mkResult true (Some (DataParsed m)) None) p
        else resolve t (mkResult true
                          (Some (DataOutput "Content crawled successfully" (stdout p)))
                          None) p
    | None => resolve t (mkResult true (Some DataEmpty) None) p
    end
  else
    resolve t (mkResult false None
                 (Some (if truthy (Some (stderr p)) then stderr p
                        else "Process exited with code " +:+ StartRoute.show_code c))) p.

(** The callback given to [setTimeout]. *)
Definition on_timeout (p : Promise) : Promise :=
  resolve TIMEOUT_MS (mkResult false None (Some "Crawl timeout after 2 minutes"))
    (mkPromise (stdout p) (stderr p) (settled p) (closed p)
               (killed p || negb (closed p))).

Definition on_event (t : Z) (e : ChildEvent) (p : Promise) : Promise :=
  match e with
  | Stdout chunk => mkPromise (stdout p +:+ chunk) (stderr p) (settled p) (closed p) (killed p)
  | Stderr chunk => mkPromise (stdout p) (stderr p +:+ chunk) (settled p) (closed p) (killed p)
  | Close c => on_close t c p
  end.

(** The executor's callbacks in the order Node runs them: the child's
    events, with the timer's callback before the first of them that comes
    at [TIMEOUT_MS] or later, and in any case once. *)
Fixpoint drive (child : list (Z * ChildEvent)) (fired : bool) (p : Promise) : Promise :=
  match child with
  | [] => if fired then p else on_timeout p
  | (t, e) :: rest =>
      if negb fired && (TIMEOUT_MS <=? t)
      then drive rest true (on_event t e (on_timeout p))
      else drive rest fired (on_event t e p)
  end.

Record Outcome := mkOutcome {
  response : Response;
  dispatched : list (list string);  (* argv of every crawler spawned *)
  terminated : bool;                (* the crawler was killed *)
  answered_at : option Z            (* ms after the spawn, when one happened *)
}.

Definition reject (r : Response) : Outcome := mkOutcome r [] false None.

Definition POST (req : Request) (child : list (Z * ChildEvent)) : Outcome :=
  match authorize (session req) with
  | Some r => reject r
  | None =>
      if negb (truthy (type req)) || negb (truthy (url req)) then
        reject (json_status (ErrorBody "Missing required fields: type and url") 400)
      else
        let ty := default "" (type req) in
        let u := default "" (url req) in
        if negb (array_includes types ty) then
          reject (json_status (ErrorBody "Invalid type. Must be: blog, video, or playlist") 400)
        else if negb (URL_ok u) then
          reject (json_status (ErrorBody "Invalid URL format") 400)
        else
          match crawler ty u with
          | None => reject (json_status (ErrorBody "Invalid type") 400)
          | Some (crawlerScript, args) =>
              let p := drive child false (mkPromise "" "" None false false) in
              let result := default (mkResult false None None) (snd <$> settled p) in
              mkOutcome
                (if success result then
                   json (Crawled ("Successfully crawled " +:+ ty)
                                 (default DataEmpty (data result)))
                 else
                   json_status
                     (CrawlFailed (if truthy (failure result)
                                   then default "" (failure result)
                                   else "Crawl failed")) 500)
                [ "python" :: crawlerScript :: args ]
                (killed p)
                (fst <$> settled p)
          end
  end.

End Handler.

End CustomRoute.

(** ** The [aws_content] table *)

Module ContentStore.

(** The columns the crawlers write that matter for identity; [url] is
    declared [TEXT NOT NULL UNIQUE], [id] is the primary key, [title] is
    [NOT NULL]. *)
Record Row := mkRow {
  id : string;
  url : string;
  canonical_url : option string;
  title : string;
  content : option string;
  ai_processed : bool
}.

(** A row as a writer submits it: nullable where SQL lets it try. *)
Record Candidate := mkCandidate {
  c_id : string;
  c_url : option string;
  c_canonical_url : option string;
  c_title : option string;
  c_content : option string
}.

Inductive DbError := not_null_violation | unique_violation.

Definition has_url (u : string) (t : list Row) : bool :=
  existsb (fun r => String.eqb (url r) u) t.

Definition has_id (i : string) (t : list Row) : bool :=
  existsb (fun r => String.eqb (id r) i) t.

(** [INSERT INTO aws_content ...] under the declared constraints. *)
Definition insert (c : Candidate) (t : list Row) : DbError + list Row :=
  match c_url c, c_title c with
  | Some u, Some ti =>
      if has_id (c_id c) t || has_url u t then inl unique_violation
      else inr (t ++ [mkRow (c_id c) u (c_canonical_url c) ti (c_content c) false])%list
  | _, _ => inl not_null_violation
  end.

(** Modelled from the spec: the Deduplicator's [isNew], which the Python
    crawlers implement outside this tree ("Check aws_content.url before
    inserting"). *)
Definition isNew (u : string) (t : list Row) : bool := negb (has_url u t).

(** Modelled from the spec: what an upsert does to the stored record: the
    key and the identity stay, the crawled fields are replaced, and the
    record stays scored only if the body is the one that was scored. *)
Definition merge (ti : string) (c : Candidate) (r : Row) : Row :=
  mkRow (id r) (url r) (c_canonical_url c) ti (c_content c)
        (ai_processed r && bool_decide (c_content c = content r)).

(** Modelled from the spec: the Deduplicator's [upsert], which the Python
    crawlers implement outside this tree: a call with a URL that is stored
    updates that record (new body, eligible for scoring again if the body
    changed) and creates none; otherwise it inserts. *)
Definition upsert (c : Candidate) (t : list Row) : DbError + list Row :=
  match c_url c, c_title c with
  | Some u, Some ti =>
      if has_url u t
      then inr (map (fun r => if String.eqb (url r) u then merge ti c r else r) t)
      else insert c t
  | _, _ => inl not_null_violation
  end.

(** What concurrent writers do to the table, one statement at a time. *)
Inductive Op :=
| Check (u : string)      (* an in-process [isNew]; reads only *)
| Insert (c : Candidate)
| Upsert (c : Candidate).

(** A refused statement leaves the table as it was. *)
Definition apply (t : list Row) (o : Op) : list Row :=
  match o with
  | Check _ => t
  | Insert c => match insert c t with inr t' => t' | inl _ => t end
  | Upsert c => match upsert c t with inr t' => t' | inl _ => t end
  end.

Definition unique_urls (t : list Row) : Prop := NoDup (map url t).

End ContentStore.

(** ** Vocabulary of the properties *)

(** The admin rule in the words of the specification: the profile's role is
    [admin], or its e-mail contains the substring [admin]. *)
Definition admin_profile (p : option Profile) : Prop :=
  exists prof, p = Some prof /\
    (role prof = Some "admin" \/
     exists e a b, email prof = Some e /\ e = a +:+ "admin" +:+ b).

(** A well-formed ad-hoc request: a recognised type and a non-empty URL
    that the URL parser accepts. *)
Definition well_formed (URL_ok : string -> bool) (ty u : option string) : Prop :=
  exists t' u', ty = Some t' /\ u = Some u' /\
    t' ∈ CustomRoute.types /\ u' <> "" /\ URL_ok u' = true.

(** The crawler that belongs to a type. *)
Definition matching_crawler (ty u : string) (argv : list string) : Prop :=
  (ty = "blog" /\ argv = ["python"; "crawlers/aws_blogs_crawler.py"; "--url"; u]) \/
  (ty = "video" /\ argv = ["python"; "crawlers/aws_youtube_crawler.py"; "--video-url"; u]) \/
  (ty = "playlist" /\ argv = ["python"; "crawlers/aws_youtube_crawler.py"; "--playlist-url"; u]).

(** The crawler does not finish within the window: whenever it ends, it
    ends after the deadline. *)
Definition unfinished_at_deadline (child : list (Z * CustomRoute.ChildEvent)) : Prop :=
  forall t c, (t, CustomRoute.Close c) ∈ child -> CustomRoute.TIMEOUT_MS < t.

Definition timeout_response : Response :=
  json_status (CrawlFailed "Crawl timeout after 2 minutes") 500.

(** What holds of one job id after a trace: the worker's life cycle, the
    record in the registry and the pending timer go together. *)
Definition terminal_ok (job : CrawlJob) : Prop :=
  (status job = completed /\ progress job = 100 /\
   stats job = Some (Stats.mk 0 0 0 0)) \/
  (status job = failed /\ progress job = 0).

Definition job_ok (evs : list Event) (w : World) (j : string) : Prop :=
  match workers w !! j with
  | None =>
      issued_in evs j = false /\ purged_in evs j = false /\
      activeCrawls w !! j = None /\ (j ∉ (timers w).*2)
  | Some Alive =>
      issued_in evs j = true /\ purged_in evs j = false /\ (j ∉ (timers w).*2) /\
      exists job, activeCrawls w !! j = Some job /\
                  status job = running /\ progress job ∈ milestones
  | Some Exited =>
      issued_in evs j = true /\
      ((purged_in evs j = false /\ (j ∈ (timers w).*2) /\
        exists job, activeCrawls w !! j = Some job /\ terminal_ok job) \/
       (purged_in evs j = true /\ activeCrawls w !! j = None /\ (j ∉ (timers w).*2)))
  end.

Definition Inv (evs : list Event) (w : World) : Prop :=
  NoDup (timers w).*2 /\ forall j, job_ok evs w j.

(** After its worker has ended the record of [j] stays in the registry, in
    a terminal state, with one clean-up timer pending, due at [deadline]. *)
Definition retained (j : string) (deadline : Z) (w : World) : Prop :=
  workers w !! j = Some Exited /\
  (exists job, activeCrawls w !! j = Some job /\ status job <> running) /\
  (deadline, j) ∈ timers w /\
  forall d, (d, j) ∈ timers w -> d = deadline.

(** From [w1] on, whatever happens, the record of [id] is in the registry
    as long as the clock is before [deadline]. *)
Definition kept_until (id : string) (deadline : Z) (w1 : World) : Prop :=
  forall evs' w2, run w1 evs' = Some w2 -> now w2 < deadline ->
    exists job, activeCrawls w2 !! id = Some job /\ status job <> running.

(** From [w1] on, the record of [id] stays until its clean-up timer runs,
    and once the clock has reached [deadline] the timer can run and removes
    it. *)
Definition removed_after (id : string) (deadline : Z) (w1 : World) : Prop :=
  forall evs' w2, run w1 evs' = Some w2 -> purged_in evs' id = false ->
    is_Some (activeCrawls w2 !! id) /\
    (deadline <= now w2 ->
     exists w3, step w2 (EvCleanup id) = Some w3 /\ activeCrawls w3 !! id = None).

Definition not_found : Response :=
  json_status (ErrorBody "Job not found or expired") 404.

Fixpoint nondecreasing (l : list Z) : bool :=
  match l with
  | x :: ((y :: _) as l') => (x <=? y) && nondecreasing l'
  | _ => true
  end.

(** The milestone a chunk of the worker's output stands for: that of the
    first marker, in the order of the handler's tests, that the trimmed
    chunk contains; none when it contains no marker. *)
Definition milestone_of (data : string) : option Z :=
  let msg := trim data in
  if includes msg "Crawling AWS Blogs" then Some 25
  else if includes msg "Crawling AWS YouTube" then Some 50
  else if includes msg "Crawling AWS Documentation" then Some 75
  else if includes msg "Processing content" then Some 90
  else None.

(** The milestone an event stands for on job [j]: that of its chunk, when
    it is output of [j]'s worker. *)
Definition sets (j : string) (e : Event) : option Z :=
  match e with
  | EvStdout i data => if String.eqb i j then milestone_of data else None
  | _ => None
  end.

(** The milestones that the chunks of [j]'s worker stand for, in the order
    of the trace. *)
Definition stages (j : string) (evs : list Event) : list Z := omap (sets j) evs.

(** Of what a polling client reads, the progress values read while the job
    is running. *)
Definition running_progress (l : list (JobStatus * Z)) : list Z :=
  omap (fun x : JobStatus * Z => if bool_decide (x.1 = running) then Some x.2 else None) l.




(** ** The browser side: what a component reads from a reply *)

(** A thrown JavaScript error: its [name] and [message]. *)
Record JsError := mkError { name : string; msg : string }.

(** [new Error(m)] *)
Definition Error (m : string) : JsError := mkError "Error" m.

(** The rendering of an error in a template string
    ([Error.prototype.toString]). *)
Definition toString (e : JsError) : string :=
  if String.eqb (msg e) "" then name e
  else if String.eqb (name e) "" then msg e
  else name e +:+ ": " +:+ msg e.

(** What [await fetch(...)] followed by [await response.json()] gives:
    an exception, or a reply with [response.ok], [response.statusText]
    and the parsed body. *)
Inductive Fetched :=
| Threw (e : JsError)
| Answered (ok : bool) (statusText : string) (data : Payload).

(** [response.ok]: the status is in the range 200-299. *)
Definition ok_status (c : Z) : bool := (200 <=? c) && (c <=? 299).

(** The reply a browser sees for a response of a route; the reason phrase
    is the transport's. *)
Definition fetched (statusText : string) (r : Response) : Fetched :=
  Answered (ok_status (code r)) statusText (payload r).

(** The members of the parsed body; [None] is [undefined]. *)
Definition data_success (p : Payload) : bool :=
  match p with
  | Started _ _ | Snapshot _ | Crawled _ _ => true
  | ErrorBody _ | ErrorDetails _ _ | CrawlFailed _ => false
  end.

Definition data_jobId (p : Payload) : option string :=
  match p with
  | Started id _ => Some id
  | Snapshot job => Some (jobId job)
  | _ => None
  end.

Definition data_status (p : Payload) : option JobStatus :=
  match p with
  | Snapshot job => Some (status job)
  | _ => None
  end.

Definition data_progress (p : Payload) : option Z :=
  match p with
  | Snapshot job => Some (progress job)
  | _ => None
  end.

Definition data_message (p : Payload) : option string :=
  match p with
  | Started _ m => Some m
  | Snapshot job => Some (message job)
  | Crawled m _ => Some m
  | _ => None
  end.

Definition data_stats (p : Payload) : option Stats.t :=
  match p with
  | Snapshot job => stats job
  | _ => None
  end.

Definition data_error (p : Payload) : option string :=
  match p with
  | ErrorBody e | ErrorDetails e _ | CrawlFailed e => Some e
  | Snapshot job => error job
  | _ => None
  end.

Definition data_data (p : Payload) : option CrawlData :=
  match p with
  | Crawled _ d => Some d
  | _ => None
  end.

(** [x || fallback] for a possibly missing string. *)
Definition or_else (x : option string) (fallback : string) : string :=
  if truthy x then default "" x else fallback.

(** A possibly missing string inside a template string. *)
Definition interpolate (x : option string) : string := default "undefined" x.

(** ** The crawl control panel *)

Module ControlPanel.

Record CrawlStatus := mkStatus {
  isRunning : bool;
  operation : option string;
  progress : Z;
  message : string;
  stats : option Stats.t
}.

Record Panel := mkPanel {
  status : CrawlStatus;
  logs : list string;
  intervals : list string   (* the job ids of the pollers that are set *)
}.

Definition initial : Panel := mkPanel (mkStatus false None 0 "" None) [] [].

(** A log line; [t] is [new Date().toLocaleTimeString()]. *)
Definition stamp (t line : string) : string := "[" +:+ t +:+ "] " +:+ line.

(** [startCrawl] up to its [await fetch]. *)
Definition starting (op t : string) (p : Panel) : Panel :=
  mkPanel (mkStatus true (Some op) 0 ("Starting " +:+ op +:+ "...") None)
          [stamp t ("Starting " +:+ op +:+ "...")]
          (intervals p).

(** The [catch] block of [startCrawl]. *)
Definition start_failed (e : JsError) (t : string) (p : Panel) : Panel :=
  mkPanel (mkStatus false None 0 ("Error: " +:+ msg e) None)
          (logs p ++ [stamp t ("ERROR: " +:+ toString e)])
          (intervals p).

(** [startCrawl] after the reply; a success sets the poller
    ([pollCrawlStatus(data.jobId)]). *)
Definition started (t : string) (res : Fetched) (p : Panel) : Panel :=
  match res with
  | Threw e => start_failed e t p
  | Answered ok statusText data =>
      if negb ok then start_failed (Error ("Failed to start crawl: " +:+ statusText)) t p
      else if data_success data then
        mkPanel (status p) (logs p) (intervals p ++ [interpolate (data_jobId data)])
      else start_failed (Error (or_else (data_error data) "Unknown error")) t p
  end.

Definition startCrawl (op t1 t2 : string) (res : Fetched) (p : Panel) : Panel :=
  started t2 res (starting op t1 p).

(** [clearInterval(interval)] of the poller of [id]. *)
Fixpoint clear (id : string) (l : list string) : list string :=
  match l with
  | [] => []
  | i :: l' => if String.eqb i id then l' else i :: clear id l'
  end.

(** [n || 0] rendered in a template string. *)
Definition count (s : option Stats.t) (f : Stats.t -> Z) : string :=
  match s with
  | Some st => if f st =? 0 then "0" else pretty (f st)
  | None => "0"
  end.

(** One run of the callback of [pollCrawlStatus]'s interval for [id]. *)
Definition poll (id t : string) (res : Fetched) (p : Panel) : Panel :=
  match res with
  | Threw e =>
      mkPanel (status p) (logs p ++ [stamp t ("Polling error: " +:+ toString e)])
              (clear id (intervals p))
  | Answered _ _ data =>
      match data_status data with
      | Some completed =>
          mkPanel (mkStatus false None 100 "Crawl completed successfully!" (data_stats data))
                  (logs p ++ [stamp t "Crawl completed!";
                              "Total: " +:+ count (data_stats data) Stats.total_processed
                              +:+ " | Success: " +:+ count (data_stats data) Stats.successful
                              +:+ " | Failed: " +:+ count (data_stats data) Stats.failed])
                  (clear id (intervals p))
      | Some failed =>
          mkPanel (mkStatus false None 0
                     ("Crawl failed: " +:+ interpolate (data_error data)) None)
                  (logs p ++ [stamp t ("ERROR: " +:+ interpolate (data_error data))])
                  (clear id (intervals p))
      | Some running =>
          mkPanel (mkStatus (isRunning (status p)) (operation (status p))
                     (match data_progress data with
                      | Some n => if n =? 0 then 50 else n
                      | None => 50
                      end)
                     (or_else (data_message data) "Crawling in progress...")
                     (stats (status p)))
                  (if truthy (data_message data)
                   then logs p ++ [stamp t (default "" (data_message data))]
                   else logs p)
                  (intervals p)
      | None => p
      end
  end.

(** The reply to the poller's request [/api/admin/crawl/status?jobId=id]. *)
Definition ask (statusText : string) (s : Session) (id : string) (w : World) : Fetched :=
  fetched statusText (StatusRoute.GET (StatusRoute.mkRequest s (Some id)) w).1.

End ControlPanel.

(** ** The custom URL panel *)

Module UrlCrawler.

Record CrawlResult := mkResult {
  success : bool;
  message : string;
  data : option CrawlData
}.

(** One of the three cards: the text box, the spinner, the alert. *)
Record Slot := mkSlot {
  url : string;
  loading : bool;
  result : option CrawlResult
}.

(** A member of [data.data], read with [?.], as a template string renders
    it when it is truthy; only a parsed crawler result has members beyond
    [message] and [output]. *)
Definition member (f : string -> option string) (d : option CrawlData) : option string :=
  match d with
  | Some (DataParsed j) => f j
  | _ => None
  end.

(** The body shared by [crawlBlogPost], [crawlVideo] and [crawlPlaylist],
    which differ in the type sent and in their texts. The second component
    lists the request bodies sent, as [(type, url)]. *)
Definition crawl (ty blank fallback : string) (describe : option CrawlData -> string)
  (fetch : string -> string -> Fetched) (s : Slot) : Slot * list (string * string) :=
  if String.eqb (trim (url s)) "" then
    (mkSlot (url s) (loading s) (Some (mkResult false blank None)), [])
  else
    (match fetch ty (url s) with
     | Threw e => mkSlot (url s) false (Some (mkResult false (msg e) None))
     | Answered ok _ body =>
         if ok && data_success body then
           mkSlot "" false
                  (Some (mkResult true (describe (data_data body)) (data_data body)))
         else
           mkSlot (url s) false
                  (Some (mkResult false (or_else (data_error body) fallback) None))
     end,
     [(ty, url s)]).

Section Panel.

(** Reading [title] and [videoCount] off the crawler's JSON is the JSON
    parser's work. *)
Variable json_title : string -> option string.
Variable json_videoCount : string -> option string.

Definition crawlBlogPost : (string -> string -> Fetched) -> Slot -> Slot * list (string * string) :=
  crawl "blog" "Please enter a blog URL" "Failed to crawl blog post"
        (fun d => "Successfully crawled: " +:+ or_else (member json_title d) "Blog post").

Definition crawlVideo : (string -> string -> Fetched) -> Slot -> Slot * list (string * string) :=
  crawl "video" "Please enter a video URL" "Failed to crawl video"
        (fun d => "Successfully crawled: " +:+ or_else (member json_title d) "Video").

Definition crawlPlaylist : (string -> string -> Fetched) -> Slot -> Slot * list (string * string) :=
  crawl "playlist" "Please enter a playlist URL" "Failed to crawl playlist"
        (fun d => "Successfully crawled " +:+ or_else (member json_videoCount d) "0"
                  +:+ " videos from playlist").

End Panel.

(** The custom route as the panel's [fetch] sees it. *)
Definition server (URL_ok JSON_ok : string -> bool) (statusText : string) (s : Session)
  (child : list (Z * CustomRoute.ChildEvent)) (ty u : string) : Fetched :=
  fetched statusText
    (CustomRoute.response
       (CustomRoute.POST URL_ok JSON_ok (CustomRoute.mkRequest s (Some ty) (Some u)) child)).

End UrlCrawler.

(** ** The content listing route *)

Module ContentRoute.

Record Request := mkRequest {
  session : Session;
  type : option string;        (* searchParams.get("type") *)
  processed : option string;
  minQuality : option string;
  search : option string;
  limit : option string
}.

Section Listing.

(** JavaScript numbers and the rows of [aws_content] are the platform's and
    the database's. *)
Variable Number : Type.
Variable parseInt parseFloat : string -> Number.
Variable isNaN : Number -> bool.
Variable Row : Type.

Inductive Filter :=
| Eq_content_type (v : string)
| Eq_is_processed (b : bool)
| Gte_overall_quality_score (n : Number)
| Ilike_title (pattern : string).

(** What the query builder has been told. *)
Record Query := mkQuery {
  from : string;
  select : string;
  order : string * bool;      (* column, ascending *)
  limit_to : Number;
  filters : list Filter
}.

(** [await query]: an error, or the rows (possibly [null]). *)
Inductive Result :=
| DbError (message : string)
| DbData (rows : option (list Row)).

Inductive Reply :=
| Rejected (r : Response)                   (* by the admin check *)
| Failed (details : string)                 (* 500, { success: false, error, details } *)
| Listed (data : list Row) (count : nat).   (* 200, { success: true, data, count } *)

Definition status_of (r : Reply) : Z :=
  match r with
  | Rejected r => code r
  | Failed _ => 500
  | Listed _ _ => 200
  end.

(** The query the handler builds from the search parameters. *)
Definition build (req : Request) : Query :=
  mkQuery "aws_content" "*" ("created_at", false)
    (parseInt (or_else (limit req) "50"))
    ((if truthy (type req) && negb (String.eqb (default "" (type req)) "all")
      then [Eq_content_type (default "" (type req))] else [])
     ++ (if truthy (processed req) && negb (String.eqb (default "" (processed req)) "all")
         then [Eq_is_processed (String.eqb (default "" (processed req)) "true")] else [])
     ++ (if truthy (minQuality req) && negb (isNaN (parseFloat (default "" (minQuality req))))
         then [Gte_overall_quality_score (parseFloat (default "" (minQuality req)))] else [])
     ++ (if truthy (search req)
         then [Ilike_title ("%" +:+ default "" (search req) +:+ "%")] else [])).

(** What the handler sends to the database. *)
Inductive Sent :=
| ProfileOf (user_id : string)   (* from("user_profiles").select("email, role").eq("user_id", user.id).single() *)
| Content (q : Query).           (* the query on [aws_content] *)

(** [GET]; the second component lists what was sent to the database, in
    order. The session holds the answers to [auth.getUser()] and to the
    profile query. *)
Definition GET (req : Request) (db : Query -> Result) : Reply * list Sent :=
  match user (session req) with
  | Some uid =>
      if authError (session req) then (Rejected unauthorized, [])
      else if negb (isAdmin (profile (session req)))
      then (Rejected forbidden, [ProfileOf uid])
      else
        let q := build req in
        (match db q with
         | DbError m => Failed m
         | DbData rows => Listed (default [] rows) (length (default [] rows))
         end, [ProfileOf uid; Content q])
  | None => (Rejected unauthorized, [])
  end.

End Listing.

End ContentRoute.

(** ** The content review panel *)

Module ContentReview.

Record Filters := mkFilters {
  contentType : string;
  processedStatus : string;
  minQuality : string;
  search : string
}.

(** The initial filters, and those the Reset button sets. *)
Definition reset : Filters := mkFilters "all" "all" "" "".

(** The [URLSearchParams] of [fetchContent]. *)
Definition params (f : Filters) : list (string * string) :=
  (if negb (String.eqb (contentType f) "all") then [("type", contentType f)] else [])
  ++ (if negb (String.eqb (processedStatus f) "all") then [("processed", processedStatus f)] else [])
  ++ (if truthy (Some (minQuality f)) then [("minQuality", minQuality f)] else [])
  ++ (if truthy (Some (search f)) then [("search", search f)] else []).

(** [searchParams.get(k)]: the first value of the key. *)
Fixpoint get (k : string) (ps : list (string * string)) : option string :=
  match ps with
  | [] => None
  | (k', v) :: ps' => if String.eqb k' k then Some v else get k ps'
  end.

(** The request the listing route receives for the panel's filters. *)
Definition request (s : Session) (f : Filters) : ContentRoute.Request :=
  let ps := params f in
  ContentRoute.mkRequest s (get "type" ps) (get "processed" ps) (get "minQuality" ps)
                         (get "search" ps) (get "limit" ps).

Section Panel.

Variable Row : Type.

Record State := mkState {
  content : list Row;
  loading : bool;
  filters : Filters
}.

(** [fetchContent] once its request is answered; [None] when [fetch] or
    [response.json()] threw. *)
Definition fetchContent (reply : option (ContentRoute.Reply Row)) (st : State) : State :=
  match reply with
  | Some (ContentRoute.Listed _ data _) => mkState data false (filters st)
  | _ => mkState (content st) false (filters st)
  end.

End Panel.

End ContentReview.

(** ** The admin page *)

Module AdminPage.

Inductive Page :=
| Redirect (to : string)
| Dashboard.   (* the three panels *)

Definition AdminCrawlingPage (s : Session) : Page :=
  if authError s || negb (bool_decide (is_Some (user s)))
  then Redirect "/signin?redirectTo=/admin/crawling"
  else if negb (isAdmin (profile s)) then Redirect "/dashboard"
  else Dashboard.

End AdminPage.

(** The three cards of the custom URL panel: the type each sends and its
    handler. *)
Definition cards (json_title json_videoCount : string -> option string)
  : list (string * ((string -> string -> Fetched) -> UrlCrawler.Slot
                    -> UrlCrawler.Slot * list (string * string))) :=
  [("blog", UrlCrawler.crawlBlogPost json_title);
   ("video", UrlCrawler.crawlVideo json_title);
   ("playlist", UrlCrawler.crawlPlaylist json_videoCount)].

(** ** The progress functions of the database schema

    Tables are lists of rows with the columns the functions read or write;
    a nullable column is an [option]. Timestamps and dates are numbers (of
    seconds, of days). PL/pgSQL raises "integer out of range" where an
    INTEGER overflows: the functions return [None] then and nothing is
    written. *)

Module Sql.

Module modules.
Record row := mk { id : string; roadmap_id : string }.
End modules.

Module topics.
Record row := mk { id : string; module_id : string }.
End topics.

Module user_progress.
Record row := mk {
  id : string;
  user_id : string;
  topic_id : string;
  status : option string;
  completed_at : option Z
}.
End user_progress.

Module user_roadmaps.
Record row := mk {
  id : string;
  user_id : string;
  roadmap_id : string;
  status : option string;
  completed_at : option Z;
  progress_percentage : option Z;
  total_topics : option Z;
  completed_topics : option Z
}.
End user_roadmaps.

Module user_profiles.
Record row := mk {
  id : string;
  current_streak : option Z;
  longest_streak : option Z;
  updated_at : option Z
}.
End user_profiles.

Record Db := mkDb {
  t_modules : list modules.row;
  t_topics : list topics.row;
  t_user_progress : list user_progress.row;
  t_user_roadmaps : list user_roadmaps.row;
  t_user_profiles : list user_profiles.row
}.

(** A value stored in an INTEGER. *)
Definition int4 (z : Z) : option Z :=
  if (-2147483648 <=? z) && (z <=? 2147483647) then Some z else None.

(** [topics t JOIN modules m ON m.id = t.module_id WHERE m.roadmap_id = r],
    for one topic. *)
Definition modules_of (db : Db) (r : string) (t : topics.row) : list modules.row :=
  filter (fun m => modules.id m = topics.module_id t /\ modules.roadmap_id m = r)
         (t_modules db).

(** The rows counted by [SELECT COUNT(t.id) ... INTO total_topics_count]. *)
Definition total_rows (db : Db) (r : string) : list string :=
  flat_map (fun t => map (fun _ => topics.id t) (modules_of db r t)) (t_topics db).

(** [user_progress up JOIN topics t ON t.id = up.topic_id JOIN modules m
    ON m.id = t.module_id WHERE m.roadmap_id = r AND up.user_id = u AND
    up.status = 'completed'], for one progress row; [g] gives the modules
    of a topic in the roadmap. *)
Definition joined (g : topics.row -> list modules.row) (u : string)
  (T : list topics.row) (up : user_progress.row) : list string :=
  if bool_decide (user_progress.user_id up = u /\
                  user_progress.status up = Some "completed")
  then flat_map (fun t => map (fun _ => user_progress.id up) (g t))
         (filter (fun t => topics.id t = user_progress.topic_id up) T)
  else [].

(** The rows counted by [SELECT COUNT(up.id) ... INTO completed_topics_count]. *)
Definition completed_rows (db : Db) (u r : string) : list string :=
  flat_map (joined (modules_of db r) u (t_topics db)) (t_user_progress db).

(** The percentage: integer division, 0 for a roadmap without topics. *)
Definition percentage (total completed : Z) : option Z :=
  if 0 <? total then prod ← int4 (completed * 100); Some (Z.quot prod total)
  else Some 0.

(** The [SET] clause of the function's UPDATE, for one enrollment. *)
Definition set_progress (total completed pct now : Z) (e : user_roadmaps.row)
  : user_roadmaps.row :=
  user_roadmaps.mk (user_roadmaps.id e) (user_roadmaps.user_id e)
    (user_roadmaps.roadmap_id e)
    (if pct =? 100 then Some "completed"
     else if 0 <? pct then Some "in_progress"
     else user_roadmaps.status e)
    (if pct =? 100 then Some now else user_roadmaps.completed_at e)
    (Some pct) (Some total) (Some completed).

(** [update_roadmap_progress(p_user_id, p_roadmap_id)]; [now] is
    CURRENT_TIMESTAMP. *)
Definition update_roadmap_progress (p_user_id p_roadmap_id : string) (now : Z) (db : Db)
  : option Db :=
  total_topics_count ← int4 (Z.of_nat (length (total_rows db p_roadmap_id)));
  completed_topics_count ←
    int4 (Z.of_nat (length (completed_rows db p_user_id p_roadmap_id)));
  progress_pct ← percentage total_topics_count completed_topics_count;
  Some (mkDb (t_modules db) (t_topics db) (t_user_progress db)
          (map (fun e =>
                  if bool_decide (user_roadmaps.user_id e = p_user_id /\
                                  user_roadmaps.roadmap_id e = p_roadmap_id)
                  then set_progress total_topics_count completed_topics_count
                                    progress_pct now e
                  else e)
               (t_user_roadmaps db))
          (t_user_profiles db)).

(** [MAX] over a nullable column: nulls are skipped. *)
Fixpoint max_of (l : list (option Z)) : option Z :=
  match l with
  | [] => None
  | None :: l' => max_of l'
  | Some x :: l' =>
      match max_of l' with
      | Some y => Some (Z.max x y)
      | None => Some x
      end
  end.

(** [GREATEST(a, b)]: nulls are skipped. *)
Definition greatest (a b : option Z) : option Z :=
  match a, b with
  | Some x, Some y => Some (Z.max x y)
  | Some x, None => Some x
  | None, b => b
  end.

Section Streak.

(** [DATE(ts)]: the day of a timestamp in the session's time zone. *)
Variable DATE : Z -> Z.

(** The user's completed progress rows. *)
Definition completed_by (db : Db) (u : string) : list user_progress.row :=
  filter (fun up => user_progress.user_id up = u /\
                    user_progress.status up = Some "completed")
         (t_user_progress db).

(** [SELECT DATE(MAX(completed_at)) INTO last_activity_date]. *)
Definition last_activity_date (db : Db) (u : string) : option Z :=
  DATE <$> max_of (map user_progress.completed_at (completed_by db u)).

(** [EXISTS (... AND DATE(completed_at) = d)]. *)
Definition active_on (db : Db) (u : string) (d : Z) : bool :=
  existsb (fun up => match user_progress.completed_at up with
                     | Some ts => DATE ts =? d
                     | None => false
                     end)
          (completed_by db u).

(** [SELECT current_streak INTO current_streak_val FROM user_profiles
    WHERE id = user_uuid]: null when there is no such row. *)
Definition stored_streak (db : Db) (u : string) : option Z :=
  match filter (fun p => user_profiles.id p = u) (t_user_profiles db) with
  | p :: _ => user_profiles.current_streak p
  | [] => None
  end.

(** The streak the function computes; the outer [None] is an overflow. *)
Definition streak (today : Z) (db : Db) (u : string) : option (option Z) :=
  match last_activity_date db u with
  | None => Some (Some 0)
  | Some last =>
      if last =? today then
        if active_on db u (today - 1) then
          match stored_streak db u with
          | Some n => Some <$> int4 (n + 1)
          | None => Some None
          end
        else Some (Some 1)
      else if last =? today - 1 then Some (stored_streak db u)
      else Some (Some 0)
  end.

(** [update_user_streak(user_uuid)]: the new tables and the value
    returned. *)
Definition update_user_streak (user_uuid : string) (today now : Z) (db : Db)
  : option (Db * option Z) :=
  current_streak_val ← streak today db user_uuid;
  Some (mkDb (t_modules db) (t_topics db) (t_user_progress db) (t_user_roadmaps db)
          (map (fun p =>
                  if bool_decide (user_profiles.id p = user_uuid)
                  then user_profiles.mk (user_profiles.id p) current_streak_val
                         (greatest (user_profiles.longest_streak p) current_streak_val)
                         (Some now)
                  else p)
               (t_user_profiles db)),
        current_streak_val).

End Streak.

(** The constraints of the schema that the functions rely on:
    [UNIQUE(user_id, topic_id)] on [user_progress], and the primary key of
    [user_profiles]. *)
Definition unique_progress (db : Db) : Prop :=
  NoDup (map (fun up => (user_progress.user_id up, user_progress.topic_id up))
             (t_user_progress db)).

Definition unique_profiles (db : Db) : Prop :=
  NoDup (map user_profiles.id (t_user_profiles db)).

End Sql.

(** ** The public search over [aws_content] *)

Module SearchRoute.

Record Request := mkRequest {
  q : option string;            (* searchParams.get("q") *)
  type : option string;
  difficulty : option string;
  services : option string;
  minQuality : option string;
  page : option string;
  limit : option string
}.

(** [s.split(",")] *)
Fixpoint split_comma (s : string) : list string :=
  match s with
  | EmptyString => [EmptyString]
  | String c s' =>
      if Ascii.eqb c "," then EmptyString :: split_comma s'
      else match split_comma s' with
           | x :: l => String c x :: l
           | [] => [String c EmptyString]
           end
  end.

(** [.filter(Boolean)] on strings: the empty ones go. *)
Definition nonempty (l : list string) : list string :=
  filter (fun x => x <> "") l.

(** The numbers the handler computes with are doubles whose value is an
    integer, or [NaN] ([None]); [Math.ceil(count / limit)] may also be
    infinite. These are the values handed to [NextResponse.json], which
    writes [NaN] and [Infinity] as [null]. *)
Inductive Pages := Finite (n : Z) | Infinity | NotANumber.

(** The double nearest to an integer, ties to even: an integer of magnitude
    below 2^53 is a double, and a larger one keeps its 53 leading bits,
    rounded. *)
Definition fl (z : Z) : Z :=
  let a := Z.abs z in
  if a <? 2 ^ 53 then z
  else
    let e := Z.log2 a - 52 in
    let q := a / 2 ^ e in
    let r := a mod 2 ^ e in
    let half := 2 ^ (e - 1) in
    let q' := if (half <? r) || ((r =? half) && Z.odd q) then q + 1 else q in
    Z.sgn z * (q' * 2 ^ e).

(** [a - b], [a + b] and [a * b] on such numbers: the exact result,
    rounded. *)
Definition sub (a b : option Z) : option Z := x ← a; y ← b; Some (fl (x - y)).
Definition add (a b : option Z) : option Z := x ← a; y ← b; Some (fl (x + y)).
Definition mul (a b : option Z) : option Z := x ← a; y ← b; Some (fl (x * y)).

(** [count ? Math.ceil(count / limit) : 0], for a count that is [null] or a
    natural number of at most 2^53: up to there the rounded quotient lies
    on the same side of every integer as the exact one, so its ceiling is
    the exact ceiling. *)
Definition totalPages (count : option Z) (limit : option Z) : Pages :=
  match count with
  | None => Finite 0
  | Some c =>
      if c =? 0 then Finite 0
      else match limit with
           | None => NotANumber
           | Some l => if l =? 0 then Infinity else Finite (- ((- c) / l))
           end
  end.

(** [page < totalPages] *)
Definition hasMore (page : option Z) (t : Pages) : bool :=
  match page, t with
  | Some p, Finite n => p <? n
  | Some _, Infinity => true
  | _, _ => false
  end.

Section Search.

(** [parseInt] gives [NaN] or a double whose value is an integer. The
    negative zero (of [-0]) and the infinities (of a digit string, or a
    product, beyond 1.8e308) are not represented. [parseFloat] and the rows
    are the platform's and the database's. *)
Variable parseInt : string -> option Z.
Variable Number : Type.
Variable parseFloat : string -> Number.
Variable isNaN : Number -> bool.
Variable Row : Type.

Inductive Filter :=
| Eq_is_processed (b : bool)
| TextSearch_search_vector (query : string)   (* websearch, english *)
| Eq_content_type (v : string)
| Eq_difficulty_level (v : string)
| Contains_aws_services (names : list string)
| Gte_overall_quality_score (n : Number).

Record Query := mkQuery {
  from : string;
  order : list (string * bool);          (* column, ascending *)
  range : option Z * option Z;           (* from, to *)
  filters : list Filter
}.

Inductive Result :=
| DbError (message : string)
| DbData (rows : option (list Row)) (count : option Z).

Record Pagination := mkPagination {
  p_page : option Z;
  p_limit : option Z;
  total : Z;
  p_totalPages : Pages;
  p_hasMore : bool
}.

(** The [filters] member of the answer: the parameters as read. *)
Record Echo := mkEcho {
  e_query : string;
  e_contentType : option string;
  e_difficulty : option string;
  e_services : option (list string);
  e_minQuality : option string
}.

Inductive Reply :=
| Failed (details : string)                      (* 500 *)
| Found (data : list Row) (pagination : Pagination) (echo : Echo).   (* 200 *)

Definition page_of (req : Request) : option Z := parseInt (or_else (page req) "1").
Definition limit_of (req : Request) : option Z := parseInt (or_else (limit req) "20").

(** [(page - 1) * limit] *)
Definition offset (req : Request) : option Z :=
  mul (sub (page_of req) (Some 1)) (limit_of req).

Definition services_of (req : Request) : option (list string) :=
  (fun s => nonempty (split_comma s)) <$> services req.

Definition build (req : Request) : Query :=
  mkQuery "aws_content"
    [("overall_quality_score", false); ("published_date", false)]
    (offset req, sub (add (offset req) (limit_of req)) (Some 1))
    ([Eq_is_processed true]
     ++ (if negb (String.eqb (trim (or_else (q req) "")) "")
         then [TextSearch_search_vector (or_else (q req) "")] else [])
     ++ (if truthy (type req) && negb (String.eqb (default "" (type req)) "all")
         then [Eq_content_type (default "" (type req))] else [])
     ++ (if truthy (difficulty req) && negb (String.eqb (default "" (difficulty req)) "all")
         then [Eq_difficulty_level (default "" (difficulty req))] else [])
     ++ (match services_of req with
         | Some (x :: l) => [Contains_aws_services (x :: l)]
         | _ => []
         end)
     ++ (if truthy (minQuality req) && negb (isNaN (parseFloat (default "" (minQuality req))))
         then [Gte_overall_quality_score (parseFloat (default "" (minQuality req)))]
         else [])).

Definition GET (req : Request) (db : Query -> Result) : Reply :=
  match db (build req) with
  | DbError m => Failed m
  | DbData rows count =>
      let t := totalPages count (limit_of req) in
      Found (default [] rows)
            (mkPagination (page_of req) (limit_of req) (default 0 count) t
                          (hasMore (page_of req) t))
            (mkEcho (or_else (q req) "") (type req) (difficulty req) (services_of req)
                    (minQuality req))
  end.

End Search.

End SearchRoute.

(** * Properties *)

(** ** Strings *)


Lemma append_cons (c : ascii) (a b : string) :
  String c a +:+ b = String c (a +:+ b).
Proof. reflexivity. Qed.

Lemma prefix_spec (sub s : string) :
  String.prefix sub s = true <-> exists b, s = sub +:+ b.
Proof.
  revert s. induction sub as [|c sub IH]; intros s; simpl.
  - split; [intros _; by exists s | intros _; by destruct s].
  - destruct s as [|c' s]; simpl.
    + split; [done | intros [b Hb]; discriminate].
    + destruct (Ascii.ascii_dec c c') as [->|Hne].
      * rewrite IH.
        split; intros [b Hb]; exists b; rewrite append_cons in *; congruence.
      * split; [done | intros [b Hb]; rewrite append_cons in Hb; congruence].
Qed.

Lemma includes_spec (s sub : string) :
  includes s sub = true <-> exists a b, s = a +:+ sub +:+ b.
Proof.
  induction s as [|c s IH].
  - change (includes "" sub) with (String.prefix sub "" || false).
    rewrite orb_false_r, prefix_spec. split.
    + intros [b Hb]. by exists "", b.
    + intros [a [b Hb]]. destruct a; [by exists b | discriminate].
  - change (includes (String c s) sub)
      with (String.prefix sub (String c s) || includes s sub).
    rewrite orb_true_iff, prefix_spec, IH. split.
    + intros [[b Hb] | [a [b Hb]]].
      * by exists "", b.
      * exists (String c a), b. by rewrite append_cons, Hb.
    + intros [a [b Hb]]. destruct a as [|c' a].
      * left. by exists b.
      * right. exists a, b. rewrite append_cons in Hb. congruence.
Qed.

Lemma array_includes_spec (arr : list string) (x : string) :
  array_includes arr x = true <-> x ∈ arr.
Proof.
  unfold array_includes. rewrite existsb_exists. split.
  - intros [y [Hin Heq]]. apply String.eqb_eq in Heq. subst.
    by apply list_elem_of_In.
  - intros Hin. exists x. split; [by apply list_elem_of_In | apply String.eqb_refl].
Qed.

Lemma strip_prefix_length (p s r : string) :
  strip_prefix p s = Some r -> String.length s = (String.length p + String.length r)%nat.
Proof.
  revert s. induction p as [|a p IH]; intros s; simpl.
  - by intros [= ->].
  - destruct s as [|b s]; [done|]. destruct (Ascii.eqb a b); [|done].
    intros H. simpl. by rewrite (IH s H).
Qed.

(** Skipping a white-space character takes at least one byte. *)
Lemma skip_white_space_shorter (s r : string) :
  skip_white_space s = Some r -> (String.length r < String.length s)%nat.
Proof.
  unfold skip_white_space. intros H. apply head_Some in H as [l Hl].
  assert (Hin : r ∈ omap (fun w => strip_prefix w s) white_space)
    by (rewrite Hl; apply elem_of_cons; by left).
  apply list_elem_of_omap in Hin as (w & Hw & Hs).
  apply strip_prefix_length in Hs. rewrite Hs.
  assert (Hpos : Forall (fun w => (0 < String.length w)%nat) white_space).
  { unfold white_space. simpl. repeat constructor. }
  rewrite Forall_forall in Hpos. specialize (Hpos w Hw). lia.
Qed.

(** [trimStart] runs to the end: what it returns does not start with white
    space. *)
Lemma trimStart_done (s : string) : skip_white_space (trimStart s) = None.
Proof.
  unfold trimStart.
  assert (H : forall n s, (String.length s <= n)%nat ->
                          skip_white_space (trimStart_from n s) = None).
  { induction n as [|n IH]; intros s' Hle; simpl.
    - destruct (skip_white_space s') as [r|] eqn:E; [|done].
      apply skip_white_space_shorter in E. lia.
    - destruct (skip_white_space s') as [r|] eqn:E; [|done].
      apply IH. apply skip_white_space_shorter in E. lia. }
  by apply H.
Qed.

(** What [trimEnd] returns does not end with white space: it is not a
    white-space character, and neither is what follows any of its bytes. *)
Lemma trimEnd_done (s : string) :
  array_includes white_space (trimEnd s) = false.
Proof.
  induction s as [|c s IH]; [done|].
  change (trimEnd (String c s))
    with (if array_includes white_space (String c (trimEnd s))
          then "" else String c (trimEnd s)).
  destruct (array_includes white_space (String c (trimEnd s))) eqn:E;
    [reflexivity | exact E].
Qed.

(** A string of white space only is blank. *)
Lemma trim_white_space (w : string) : w ∈ white_space -> trim w = "".
Proof.
  unfold white_space. simpl. intros H.
  repeat (apply elem_of_cons in H as [-> | H]; [reflexivity|]).
  by apply elem_of_nil in H.
Qed.

(** The admin test of the handlers is the admin rule of the specification. *)
Lemma isAdmin_spec (p : option Profile) :
  isAdmin p = true <-> admin_profile p.
Proof.
  unfold isAdmin, admin_profile. destruct p as [[r e]|]; simpl.
  - rewrite orb_true_iff. split.
    + intros [Hr | He].
      * destruct r as [r|]; [|done]. apply String.eqb_eq in Hr. subst. eauto.
      * destruct e as [e|]; [|done]. apply includes_spec in He as (a & b & ->).
        eexists; split; [done|]. right. by exists (a +:+ "admin" +:+ b), a, b.
    + intros (prof & [= <-] & [Hr | (e' & a & b & He & Heq)]); simpl in *.
      * left. subst. done.
      * right. subst. apply includes_spec. eauto.
  - split; [done | intros (prof & Hp & _); discriminate].
Qed.

Lemma authorize_None (s : Session) :
  authorize s = None <->
  authError s = false /\ is_Some (user s) /\ isAdmin (profile s) = true.
Proof.
  unfold authorize. destruct (authError s); simpl.
  - split; [done | intros [? _]; done].
  - case_bool_decide as Hu; simpl.
    + destruct (isAdmin (profile s)); simpl; split; try done.
      intros (_ & _ & ?); done.
    + split; [done | intros (_ & ? & _); done].
Qed.

(** ** The admin check *)

(** C10. On each of the three routes a requester who is not authenticated
    is answered 401 Unauthorized, and one who is authenticated but neither
    has the role [admin] nor an e-mail containing [admin] is answered 403
    Forbidden; the handler returns at that point: the registry, the
    workers and the timers are as before, the start route has created no
    job, the status route has revealed none, and the ad-hoc route has
    dispatched no crawler (so nothing has been started that could write to
    the content store). *)
Theorem authorize_rejects_before_any_effect (s : Session) (r : Response) :
  ((authError s = true \/ user s = None) /\ r = unauthorized) \/
  (authError s = false /\ is_Some (user s) /\ ~ admin_profile (profile s) /\
   r = forbidden) ->
  (code unauthorized = 401 /\ code forbidden = 403) /\
  (forall op uuid w,
      StartRoute.POST (StartRoute.mkRequest s op) uuid w = (r, w)) /\
  (forall id w,
      StatusRoute.GET (StatusRoute.mkRequest s id) w = (r, w)) /\
  (forall URL_ok JSON_ok ty u child,
      CustomRoute.POST URL_ok JSON_ok (CustomRoute.mkRequest s ty u) child
      = CustomRoute.mkOutcome r [] false None).
Proof.
  intros H.
  assert (Hg : authorize s = Some r).
  { unfold authorize. destruct H as [[[Ha | Hu] ->] | (Ha & Hu & Hp & ->)].
    - by rewrite Ha.
    - rewrite Hu. by rewrite orb_true_r.
    - rewrite Ha. rewrite bool_decide_true by done. simpl.
      destruct (isAdmin (profile s)) eqn:E; [|done].
      by apply isAdmin_spec in E. }
  split; [done|].
  unfold StartRoute.POST, StatusRoute.GET, CustomRoute.POST, CustomRoute.reject.
  simpl. rewrite Hg. done.
Qed.

Lemma authorize_rejects_before_any_effect_witness :
  let s := mkSession false (Some "u-7")
             (Some (mkProfile (Some "learner") (Some "ann@example.org"))) in
  let w := (StartRoute.POST (StartRoute.mkRequest admin (Some "full-crawl"))
              "job-1" init).2 in
  StartRoute.POST (StartRoute.mkRequest s (Some "full-crawl")) "job-2" w
    = (forbidden, w) /\
  StatusRoute.GET (StatusRoute.mkRequest s (Some "job-1")) w = (forbidden, w).
Proof.
  intros s w.
  assert (H : ((authError s = true \/ user s = None) /\ forbidden = unauthorized) \/
              (authError s = false /\ is_Some (user s) /\
               ~ admin_profile (profile s) /\ forbidden = forbidden)).
  { right. split; [reflexivity|]. split; [by eexists|]. split; [|reflexivity].
    rewrite <- isAdmin_spec. vm_compute. discriminate. }
  destruct (authorize_rejects_before_any_effect s forbidden H) as (_ & Hs & Hq & _).
  split; [apply Hs | apply Hq].
Defined.

(** ** The status query reads only *)

(** C8. A status query, whatever the requester and the job id, leaves the
    registry as it was (the same jobs with the same fields) and touches
    neither the workers nor their timers nor the clock, and spawns nothing;
    it returns from what the registry holds at that moment. *)
Theorem status_query_is_a_pure_read (req : StatusRoute.Request) (w : World) :
  let w' := (StatusRoute.GET req w).2 in
  activeCrawls w' = activeCrawls w /\
  workers w' = workers w /\
  timers w' = timers w /\
  now w' = now w /\
  spawned w' = spawned w.
Proof.
  unfold StatusRoute.GET, StatusRoute.getActiveCrawls.
  destruct (authorize (StatusRoute.session req)); [done|].
  destruct (negb (truthy (StatusRoute.jobIdParam req))); [done|].
  by destruct (activeCrawls w !! default "" (StatusRoute.jobIdParam req)).
Qed.

(** ** Starting an operation *)

(** C4. For an authorised requester and every operation string: when the
    string is not one of [daily-update], [full-crawl], [process-content]
    the start route answers 400 (invalid operation) and the world is
    unchanged, so no job record exists that did not before; when it is one
    of the three, the route adds one record under the fresh id, with status
    [running] and progress 0 for that operation, starts its worker and
    returns the id to the caller. *)
Theorem start_validates_operation
  (s : Session) (op uuid : string) (w : World) :
  authorize s = None ->
  let out := StartRoute.POST (StartRoute.mkRequest s (Some op)) uuid w in
  (op ∉ ["daily-update"; "full-crawl"; "process-content"] ->
     code out.1 = 400 /\ out.1 = StartRoute.invalid_operation /\ out.2 = w) /\
  (op ∈ ["daily-update"; "full-crawl"; "process-content"] ->
     exists job,
       out.1 = json (Started uuid ("Started " +:+ op +:+ " operation")) /\
       activeCrawls out.2 = <[uuid := job]> (activeCrawls w) /\
       jobId job = uuid /\ operation job = op /\
       status job = running /\ progress job = 0 /\
       workers out.2 !! uuid = Some Alive /\
       spawned out.2
       = (spawned w ++ [["python"; "orchestrator.py"; "--operation"; op]])%list).
Proof.
  intros Hg out. subst out. unfold StartRoute.POST.
  cbn [StartRoute.session StartRoute.body]. rewrite Hg.
  change ["daily-update"; "full-crawl"; "process-content"] with StartRoute.operations.
  split; intros Hop.
  - assert (E : array_includes StartRoute.operations op = false).
    { destruct (array_includes StartRoute.operations op) eqn:E; [|done].
      by apply array_includes_spec in E. }
    rewrite E, orb_true_r. done.
  - assert (E : array_includes StartRoute.operations op = true)
      by by apply array_includes_spec.
    assert (Hne : String.eqb op "" = false).
    { apply String.eqb_neq. intros ->. vm_compute in E. discriminate. }
    unfold truthy. rewrite E, Hne. cbn [negb orb fst snd].
    eexists. repeat split. cbn. apply lookup_insert_eq.
Qed.

Lemma start_validates_operation_witness :
  (StartRoute.POST (StartRoute.mkRequest admin (Some "weekly")) "job-1" init).2 = init /\
  exists job,
    activeCrawls (StartRoute.POST (StartRoute.mkRequest admin (Some "daily-update"))
                    "job-1" init).2 = <[ "job-1" := job ]> ∅ /\
    status job = running /\ progress job = 0.
Proof.
  assert (Hg : authorize admin = None) by reflexivity.
  split.
  - destruct (start_validates_operation admin "weekly" "job-1" init Hg) as [H _].
    apply H. vm_compute. intros Hin.
    repeat (apply elem_of_cons in Hin as [Hin|Hin]; [discriminate|]).
    by apply elem_of_nil in Hin.
  - destruct (start_validates_operation admin "daily-update" "job-1" init Hg) as [_ H].
    destruct H as (job & _ & Hm & _ & _ & Hs & Hp & _).
    + apply elem_of_cons. by left.
    + exists job. done.
Defined.

(** ** The ad-hoc crawl *)

Lemma truthy_Some (o : option string) :
  truthy o = true <-> exists s, o = Some s /\ s <> "".
Proof.
  destruct o as [s|]; simpl.
  - rewrite negb_true_iff, String.eqb_neq. split; [eauto | by intros (? & [= <-] & ?)].
  - split; [done | by intros (? & ? & _)].
Qed.

Lemma crawler_matches (ty u : string) :
  ty ∈ CustomRoute.types ->
  exists script args,
    CustomRoute.crawler ty u = Some (script, args) /\
    matching_crawler ty u ("python" :: script :: args).
Proof.
  unfold CustomRoute.types, matching_crawler. intros Hin.
  repeat (apply elem_of_cons in Hin as [-> | Hin]);
    [ | | | by apply elem_of_nil in Hin ];
    do 2 eexists; (split; [reflexivity|]); tauto.
Qed.

Section Executor.

Variable URL_ok : string -> bool.
Variable JSON_ok : string -> bool.

Lemma resolve_settled t r p x :
  CustomRoute.settled p = Some x -> CustomRoute.resolve t r p = p.
Proof. unfold CustomRoute.resolve. by intros ->. Qed.

Lemma resolve_fresh t r p :
  CustomRoute.settled p = None ->
  CustomRoute.settled (CustomRoute.resolve t r p) = Some (t, r) /\
  CustomRoute.killed (CustomRoute.resolve t r p) = CustomRoute.killed p /\
  CustomRoute.closed (CustomRoute.resolve t r p) = CustomRoute.closed p.
Proof. unfold CustomRoute.resolve. by intros ->. Qed.

(** Once the promise is settled no later callback changes the answer, and
    only the timer's callback kills. *)
Lemma on_event_settled t e p x :
  CustomRoute.settled p = Some x ->
  CustomRoute.settled (CustomRoute.on_event JSON_ok t e p) = Some x /\
  CustomRoute.killed (CustomRoute.on_event JSON_ok t e p) = CustomRoute.killed p.
Proof.
  intros Hs. destruct e as [chunk|chunk|c]; simpl; [done|done|].
  unfold CustomRoute.on_close. simpl.
  repeat case_match; (erewrite resolve_settled; [done | by simpl]).
Qed.

Lemma drive_fired child p x :
  CustomRoute.settled p = Some x ->
  CustomRoute.settled (CustomRoute.drive JSON_ok child true p) = Some x /\
  CustomRoute.killed (CustomRoute.drive JSON_ok child true p) = CustomRoute.killed p.
Proof.
  revert p. induction child as [|[t e] rest IH]; intros p Hs; simpl; [done|].
  destruct (on_event_settled t e p x Hs) as [Hs' Hk'].
  destruct (IH _ Hs') as [? ?]. split; congruence.
Qed.

Lemma on_timeout_settles p :
  CustomRoute.settled p = None ->
  CustomRoute.settled (CustomRoute.on_timeout p)
  = Some (CustomRoute.TIMEOUT_MS,
          CustomRoute.mkResult false None (Some "Crawl timeout after 2 minutes")) /\
  CustomRoute.killed (CustomRoute.on_timeout p)
  = CustomRoute.killed p || negb (CustomRoute.closed p).
Proof.
  intros Hs. unfold CustomRoute.on_timeout.
  destruct (resolve_fresh CustomRoute.TIMEOUT_MS
              (CustomRoute.mkResult false None (Some "Crawl timeout after 2 minutes"))
              (CustomRoute.mkPromise (CustomRoute.stdout p) (CustomRoute.stderr p)
                 (CustomRoute.settled p) (CustomRoute.closed p)
                 (CustomRoute.killed p || negb (CustomRoute.closed p))) Hs)
    as (-> & -> & _). done.
Qed.

(** A crawler that is still running at the deadline is killed and the
    promise is settled by the timer, with the timeout failure. *)
Lemma drive_timeout child p :
  CustomRoute.settled p = None ->
  CustomRoute.closed p = false ->
  unfinished_at_deadline child ->
  CustomRoute.settled (CustomRoute.drive JSON_ok child false p)
  = Some (CustomRoute.TIMEOUT_MS,
          CustomRoute.mkResult false None (Some "Crawl timeout after 2 minutes")) /\
  CustomRoute.killed (CustomRoute.drive JSON_ok child false p) = true.
Proof.
  revert p. induction child as [|[t e] rest IH]; intros p Hs Hc Hun; simpl.
  - destruct (on_timeout_settles p Hs) as [-> ->]. rewrite Hc. by rewrite orb_true_r.
  - destruct (Z.leb_spec CustomRoute.TIMEOUT_MS t) as [Hle|Hlt].
    + destruct (on_timeout_settles p Hs) as [Hs1 Hk1].
      destruct (on_event_settled t e _ _ Hs1) as [Hs2 Hk2].
      destruct (drive_fired rest _ _ Hs2) as [-> ->].
      rewrite Hk2, Hk1, Hc. by rewrite orb_true_r.
    + assert (Hrest : unfinished_at_deadline rest).
      { intros t' c' Hin. apply (Hun t' c'). by apply elem_of_cons; right. }
      destruct e as [chunk|chunk|c]; simpl.
      * by apply IH.
      * by apply IH.
      * assert (CustomRoute.TIMEOUT_MS < t); [|lia].
        apply (Hun t c). by apply elem_of_cons; left.
Qed.

(** The promise is always settled, and never later than the deadline. *)
Lemma drive_answers child p :
  (forall x, CustomRoute.settled p = Some x -> x.1 <= CustomRoute.TIMEOUT_MS) ->
  exists t r, CustomRoute.settled (CustomRoute.drive JSON_ok child false p) = Some (t, r) /\
              t <= CustomRoute.TIMEOUT_MS.
Proof.
  assert (Htimeout : forall q,
    (forall x, CustomRoute.settled q = Some x -> x.1 <= CustomRoute.TIMEOUT_MS) ->
    exists t r, CustomRoute.settled (CustomRoute.on_timeout q) = Some (t, r) /\
                t <= CustomRoute.TIMEOUT_MS).
  { intros q Hq. destruct (CustomRoute.settled q) as [[t r]|] eqn:E.
    - exists t, r. split; [|by apply (Hq (t, r))].
      unfold CustomRoute.on_timeout. by erewrite resolve_settled.
    - destruct (on_timeout_settles q E) as [-> _]. do 2 eexists. split; [done|lia]. }
  revert p. induction child as [|[t e] rest IH]; intros p Hp; simpl.
  - by apply Htimeout.
  - destruct (Z.leb_spec CustomRoute.TIMEOUT_MS t) as [Hle|Hlt].
    + destruct (Htimeout p Hp) as (t1 & r1 & Hs1 & Ht1).
      destruct (on_event_settled t e _ _ Hs1) as [Hs2 _].
      destruct (drive_fired rest _ _ Hs2) as [-> _]. eauto.
    + apply IH. intros x Hx.
      destruct (CustomRoute.settled p) as [y|] eqn:E.
      * destruct (on_event_settled t e p y E) as [Hs _].
        rewrite Hs in Hx. injection Hx as <-. by apply Hp.
      * destruct e as [chunk|chunk|c]; simpl in Hx; [congruence|congruence|].
        unfold CustomRoute.on_close in Hx. simpl in Hx.
        repeat case_match;
          match type of Hx with
          | CustomRoute.settled (CustomRoute.resolve ?t ?r ?q) = _ =>
              destruct (resolve_fresh t r q E) as (Hr & _ & _);
              rewrite Hr in Hx; injection Hx as <-; simpl; lia
          end.
Qed.

End Executor.



Section Settling.

Variable JSON_ok : string -> bool.




End Settling.




(** C5. An ad-hoc crawl is answered no later than the hard timeout of two
    minutes after the crawler was started; and when the crawler has not
    ended by then, it is killed and the request fails with the timeout
    error (500, "Crawl timeout after 2 minutes"), answered at the
    deadline. *)
Theorem custom_crawl_hard_timeout
  (URL_ok JSON_ok : string -> bool) (s : Session) (ty u : option string)
  (child : list (Z * CustomRoute.ChildEvent)) :
  authorize s = None ->
  well_formed URL_ok ty u ->
  let o := CustomRoute.POST URL_ok JSON_ok (CustomRoute.mkRequest s ty u) child in
  CustomRoute.TIMEOUT_MS = 120000 /\
  (exists t, CustomRoute.answered_at o = Some t /\ t <= CustomRoute.TIMEOUT_MS) /\
  (unfinished_at_deadline child ->
     CustomRoute.terminated o = true /\
     CustomRoute.response o = timeout_response /\
     CustomRoute.answered_at o = Some CustomRoute.TIMEOUT_MS).
Proof.
  intros Hg (t' & u' & -> & -> & Hin & Hu' & Hurl) o. subst o.
  split; [reflexivity|].
  unfold CustomRoute.POST.
  cbn [CustomRoute.session CustomRoute.type CustomRoute.url]. rewrite Hg.
  assert (Ety : truthy (Some t') = true).
  { apply truthy_Some. exists t'. split; [done|]. intros ->.
    apply array_includes_spec in Hin. discriminate. }
  assert (Eu : truthy (Some u') = true) by (apply truthy_Some; eauto).
  rewrite Ety, Eu. cbn [negb orb from_option id].
  apply array_includes_spec in Hin as Hin'. rewrite Hin', Hurl. cbn [negb].
  destruct (crawler_matches t' u' Hin) as (script & args & -> & _).
  cbn [CustomRoute.answered_at CustomRoute.terminated CustomRoute.response].
  set (p0 := CustomRoute.mkPromise "" "" None false false).
  split.
  - destruct (drive_answers JSON_ok child p0) as (t & r & -> & Ht); [done|].
    exists t. done.
  - intros Hun.
    destruct (drive_timeout JSON_ok child p0) as [-> ->]; done.
Qed.

Lemma custom_crawl_hard_timeout_witness :
  let o := CustomRoute.POST (String.prefix "https://") (fun _ => true)
             (CustomRoute.mkRequest admin (Some "blog") (Some "https://blog.example/a"))
             [(1500, CustomRoute.Stdout "fetching"); (130000, CustomRoute.Close None)] in
  CustomRoute.terminated o = true /\
  CustomRoute.response o = timeout_response /\
  CustomRoute.answered_at o = Some 120000.
Proof.
  intros o.
  apply (custom_crawl_hard_timeout (String.prefix "https://") (fun _ => true) admin
           (Some "blog") (Some "https://blog.example/a")
           [(1500, CustomRoute.Stdout "fetching"); (130000, CustomRoute.Close None)]).
  - reflexivity.
  - exists "blog", "https://blog.example/a".
    do 2 (split; [reflexivity|]). split; [apply elem_of_cons; by left|].
    split; [discriminate | reflexivity].
  - intros t c Hin.
    apply elem_of_cons in Hin as [Heq | Hin]; [discriminate|].
    apply elem_of_cons in Hin as [Heq | Hin]; [injection Heq as -> _; reflexivity|].
    by apply elem_of_nil in Hin.
Defined.

(** ** The content table *)

Lemma has_url_spec (u : string) (t : list ContentStore.Row) :
  ContentStore.has_url u t = true <-> u ∈ map ContentStore.url t.
Proof.
  unfold ContentStore.has_url. rewrite existsb_exists, list_elem_of_In, in_map_iff.
  split.
  - intros (r & Hin & Heq). apply String.eqb_eq in Heq. eauto.
  - intros (r & Heq & Hin). exists r. split; [done|]. by apply String.eqb_eq.
Qed.

Lemma insert_unique (c : ContentStore.Candidate) (t t' : list ContentStore.Row) :
  ContentStore.unique_urls t ->
  ContentStore.insert c t = inr t' ->
  ContentStore.unique_urls t'.
Proof.
  unfold ContentStore.insert, ContentStore.unique_urls. intros Hu Hi.
  destruct (ContentStore.c_url c) as [u|]; [|done].
  destruct (ContentStore.c_title c) as [ti|]; [|done].
  destruct (ContentStore.has_id _ t); [done|]. simpl in Hi.
  destruct (ContentStore.has_url u t) eqn:E; [done|].
  injection Hi as <-. rewrite map_app. simpl.
  apply NoDup_app. split; [done|]. split.
  - intros x Hx Hx'. apply list_elem_of_singleton in Hx'. subst x.
    apply has_url_spec in Hx. congruence.
  - apply NoDup_singleton.
Qed.

Lemma upsert_unique (c : ContentStore.Candidate) (t t' : list ContentStore.Row) :
  ContentStore.unique_urls t ->
  ContentStore.upsert c t = inr t' ->
  ContentStore.unique_urls t'.
Proof.
  unfold ContentStore.upsert. intros Hu Hi.
  destruct (ContentStore.c_url c) as [u|] eqn:Eu; [|done].
  destruct (ContentStore.c_title c) as [ti|] eqn:Et; [|done].
  destruct (ContentStore.has_url u t) eqn:E.
  - injection Hi as <-. unfold ContentStore.unique_urls in *.
    rewrite map_map.
    erewrite map_ext; [exact Hu|]. intros r. simpl. by case_match.
  - by eapply insert_unique.
Qed.

Lemma apply_unique (t : list ContentStore.Row) (o : ContentStore.Op) :
  ContentStore.unique_urls t -> ContentStore.unique_urls (ContentStore.apply t o).
Proof.
  intros Hu. destruct o as [u|c|c]; simpl; [done| |].
  - destruct (ContentStore.insert c t) eqn:E; [done|]. by eapply insert_unique.
  - destruct (ContentStore.upsert c t) eqn:E; [done|]. by eapply upsert_unique.
Qed.

(** C6. The URL column of the content table is unique and stays unique:
    whatever statements the writers issue and however they interleave
    (in-process checks, inserts, upserts), no two stored rows share a URL.
    The table's constraint does this by itself: an insert of a stored URL
    is refused with a unique violation and an upsert of it keeps the number
    of rows, also when a check made earlier had found the URL absent. *)
Theorem content_urls_stay_unique
  (t : list ContentStore.Row) (ops : list ContentStore.Op) :
  ContentStore.unique_urls t ->
  ContentStore.unique_urls (fold_left ContentStore.apply ops t) /\
  (forall c u ti, ContentStore.c_url c = Some u -> ContentStore.c_title c = Some ti ->
     u ∈ map ContentStore.url t ->
     ContentStore.insert c t = inl ContentStore.unique_violation /\
     exists t', ContentStore.upsert c t = inr t' /\ length t' = length t).
Proof.
  intros Hu. split.
  - revert t Hu. induction ops as [|o ops IH]; intros t Hu; simpl; [done|].
    apply IH. by apply apply_unique.
  - intros c u ti Hcu Hct Hin. apply has_url_spec in Hin.
    unfold ContentStore.upsert, ContentStore.insert. rewrite Hcu, Hct, Hin.
    rewrite orb_true_r. split; [done|]. eexists. split; [done|].
    by rewrite length_map.
Qed.

Lemma content_urls_stay_unique_witness :
  let a := ContentStore.mkCandidate "id-1" (Some "https://aws.amazon.com/blogs/a")
             None (Some "A") (Some "body") in
  let b := ContentStore.mkCandidate "id-2" (Some "https://aws.amazon.com/blogs/a")
             None (Some "A, again") (Some "body") in
  let race := [ContentStore.Check "https://aws.amazon.com/blogs/a";
               ContentStore.Check "https://aws.amazon.com/blogs/a";
               ContentStore.Insert a; ContentStore.Insert b] in
  ContentStore.isNew "https://aws.amazon.com/blogs/a" [] = true /\
  ContentStore.unique_urls (fold_left ContentStore.apply race []) /\
  length (fold_left ContentStore.apply race []) = 1%nat.
Proof.
  intros a b race. split; [reflexivity|]. split; [|reflexivity].
  apply (content_urls_stay_unique [] race). apply NoDup_nil_2.
Defined.

(** ** The job registry: traces and their invariant *)

Lemma run_app (w : World) (evs1 evs2 : list Event) :
  run w (evs1 ++ evs2) = run w evs1 ≫= fun w' => run w' evs2.
Proof.
  revert w. induction evs1 as [|e evs1 IH]; intros w; simpl; [done|].
  destruct (step w e); [apply IH | done].
Qed.

Lemma run_snoc (w w' : World) (evs : list Event) (e : Event) :
  run w (evs ++ [e]) = Some w' <->
  exists w1, run w evs = Some w1 /\ step w1 e = Some w'.
Proof.
  rewrite run_app. destruct (run w evs) as [w1|]; simpl.
  - destruct (step w1 e) eqn:E; split.
    + intros [= <-]. eauto.
    + intros (? & [= <-] & ?). congruence.
    + done.
    + intros (? & [= <-] & ?). congruence.
  - split; [done | by intros (? & ? & _)].
Qed.

Lemma issued_in_snoc (evs : list Event) (e : Event) (j : string) :
  issued_in (evs ++ [e]) j
  = issued_in evs j ||
    match e with
    | EvStart req u => String.eqb u j && accepts req
    | _ => false
    end.
Proof. unfold issued_in. rewrite existsb_app. simpl. by rewrite orb_false_r. Qed.

Lemma purged_in_snoc (evs : list Event) (e : Event) (j : string) :
  purged_in (evs ++ [e]) j
  = purged_in evs j ||
    match e with
    | EvCleanup i => String.eqb i j
    | _ => false
    end.
Proof. unfold purged_in. rewrite existsb_app. simpl. by rewrite orb_false_r. Qed.

Lemma take_timer_spec (id : string) (t : Z) (l l' : list (Z * string)) :
  take_timer id t l = Some l' ->
  exists d l1 l2, l = l1 ++ (d, id) :: l2 /\ l' = l1 ++ l2 /\ d <= t.
Proof.
  revert l'. induction l as [|[d i] l IH]; intros l'; simpl; [done|].
  destruct (String.eqb_spec i id) as [->|Hne]; simpl.
  - destruct (Z.leb_spec d t) as [Hle|Hlt].
    + intros [= <-]. by exists d, [], l.
    + destruct (take_timer id t l) as [l0|]; [|done]. intros [= <-].
      destruct (IH l0 eq_refl) as (d' & l1 & l2 & -> & -> & Hd).
      by exists d', ((d, id) :: l1), l2.
  - destruct (take_timer id t l) as [l0|]; [|done]. intros [= <-].
    destruct (IH l0 eq_refl) as (d' & l1 & l2 & -> & -> & Hd).
    by exists d', ((d, i) :: l1), l2.
Qed.

(** The start route either refuses and changes nothing, or registers the
    job and starts its worker. *)
Lemma POST_cases (req : StartRoute.Request) (uuid : string) (w : World) :
  (accepts req = false /\ (StartRoute.POST req uuid w).2 = w) \/
  (accepts req = true /\ exists op,
     StartRoute.body req = Some op /\
     (StartRoute.POST req uuid w).1
       = json (Started uuid ("Started " +:+ op +:+ " operation")) /\
     (StartRoute.POST req uuid w).2
       = mkWorld (<[uuid := mkJob uuid op running 0 ("Starting " +:+ op +:+ "...")
                                 None None]> (activeCrawls w))
                 (<[uuid := Alive]> (workers w)) (timers w) (now w)
                 (spawned w ++ [["python"; "orchestrator.py"; "--operation"; op]])
                 (statusRouteLoaded w)).
Proof.
  unfold accepts, StartRoute.POST.
  destruct (authorize (StartRoute.session req)); [by left|].
  destruct (StartRoute.body req) as [op|]; [|by left].
  destruct (array_includes StartRoute.operations op) eqn:E.
  - right. split; [done|]. exists op. split; [done|].
    assert (Hne : String.eqb op "" = false).
    { apply String.eqb_neq. intros ->. discriminate. }
    unfold truthy. rewrite Hne. done.
  - left. by rewrite orb_true_r.
Qed.

(** The stdout handler rewrites at most the progress and the message of
    the job it belongs to. *)
Lemma on_stdout_lookup (id data : string) (w : World) (job : CrawlJob) :
  activeCrawls w !! id = Some job ->
  exists job',
    activeCrawls (StartRoute.on_stdout id data w) = <[id := job']> (activeCrawls w) /\
    jobId job' = jobId job /\ operation job' = operation job /\
    status job' = status job /\ stats job' = stats job /\ error job' = error job /\
    (job' = job \/ progress job' ∈ [25; 50; 75; 90]).
Proof.
  intros Hj. unfold StartRoute.on_stdout. rewrite Hj.
  eexists. split; [reflexivity|].
  repeat case_match; (repeat (split; [reflexivity|]));
    first [ by left
          | right; cbn [progress];
            set_solver ].
Qed.

Lemma on_stdout_frame (id data : string) (w : World) :
  workers (StartRoute.on_stdout id data w) = workers w /\
  timers (StartRoute.on_stdout id data w) = timers w /\
  now (StartRoute.on_stdout id data w) = now w /\
  spawned (StartRoute.on_stdout id data w) = spawned w /\
  forall j, j <> id ->
    activeCrawls (StartRoute.on_stdout id data w) !! j = activeCrawls w !! j.
Proof.
  unfold StartRoute.on_stdout.
  destruct (activeCrawls w !! id); simpl; repeat split; try done.
  intros j Hj. by rewrite lookup_insert_ne.
Qed.


Lemma job_ok_frame evs e w w' j :
  workers w' !! j = workers w !! j ->
  activeCrawls w' !! j = activeCrawls w !! j ->
  (j ∈ (timers w').*2 <-> j ∈ (timers w).*2) ->
  issued_in (evs ++ [e]) j = issued_in evs j ->
  purged_in (evs ++ [e]) j = purged_in evs j ->
  job_ok evs w j -> job_ok (evs ++ [e]) w' j.
Proof.
  unfold job_ok. intros -> -> Ht -> ->.
  destruct (workers w !! j) as [[]|]; rewrite ?Ht; done.
Qed.

Lemma Inv_start evs w req uuid :
  workers w !! uuid = None ->
  Inv evs w -> Inv (evs ++ [EvStart req uuid]) (StartRoute.POST req uuid w).2.
Proof.
  intros Hfresh [Hnd Hj].
  destruct (POST_cases req uuid w) as [[Hacc ->] | (Hacc & op & Hb & _ & ->)].
  - split; [done|]. intros j. apply (job_ok_frame _ _ w); try done.
    + rewrite issued_in_snoc, Hacc. by rewrite andb_false_r, orb_false_r.
    + rewrite purged_in_snoc. by rewrite orb_false_r.
  - split; [done|]. intros j. destruct (decide (j = uuid)) as [->|Hne].
    + specialize (Hj uuid). unfold job_ok in *. rewrite Hfresh in Hj. simpl.
      rewrite lookup_insert_eq. destruct Hj as (Hi & Hp & Hc & Ht).
      rewrite issued_in_snoc, purged_in_snoc, Hacc, String.eqb_refl, Hp.
      rewrite orb_true_r. repeat split; try done.
      eexists. rewrite lookup_insert_eq. split; [done|]. simpl. split; [done|].
      set_solver.
    + apply (job_ok_frame _ _ w); simpl; try done.
      * by rewrite lookup_insert_ne.
      * by rewrite lookup_insert_ne.
      * rewrite issued_in_snoc.
        destruct (String.eqb_spec uuid j); [congruence|]. by rewrite orb_false_r.
      * rewrite purged_in_snoc. by rewrite orb_false_r.
Qed.


Lemma snoc_other_event evs e j :
  match e with EvStart _ _ | EvCleanup _ => False | _ => True end ->
  issued_in (evs ++ [e]) j = issued_in evs j /\
  purged_in (evs ++ [e]) j = purged_in evs j.
Proof.
  intros He. rewrite issued_in_snoc, purged_in_snoc.
  destruct e; try done; by rewrite !orb_false_r.
Qed.

Lemma alive_spec id w : alive id w = true <-> workers w !! id = Some Alive.
Proof. unfold alive. by rewrite bool_decide_eq_true. Qed.

Lemma Inv_stdout evs w id data :
  workers w !! id = Some Alive ->
  Inv evs w -> Inv (evs ++ [EvStdout id data]) (StartRoute.on_stdout id data w).
Proof.
  intros Hal [Hnd Hj].
  destruct (on_stdout_frame id data w) as (Hw & Ht & _ & _ & Hother).
  destruct (snoc_other_event evs (EvStdout id data)) with (j := id) as [Hi Hp]; [done|].
  split; [by rewrite Ht|]. intros j. destruct (decide (j = id)) as [->|Hne].
  - specialize (Hj id). unfold job_ok in *. rewrite Hw, Ht, Hi, Hp, Hal in *.
    destruct Hj as (? & ? & ? & job & Hjob & Hs & Hpr).
    destruct (on_stdout_lookup id data w job Hjob) as (job' & -> & _ & _ & Hs' & _ & _ & Hpr').
    repeat (split; [done|]). exists job'. rewrite lookup_insert_eq.
    split; [done|]. split; [congruence|].
    destruct Hpr' as [-> | Hpr']; [done|]. by apply elem_of_cons; right.
  - destruct (snoc_other_event evs (EvStdout id data)) with (j := j); [done|].
    apply (job_ok_frame _ _ w); try done; [congruence | by apply Hother | by rewrite Ht].
Qed.

Lemma Inv_unobserved evs e w w' :
  match e with EvStart _ _ | EvCleanup _ => False | _ => True end ->
  workers w' = workers w -> activeCrawls w' = activeCrawls w -> timers w' = timers w ->
  Inv evs w -> Inv (evs ++ [e]) w'.
Proof.
  intros He Hw Hc Ht [Hnd Hj]. split; [by rewrite Ht|]. intros j.
  destruct (snoc_other_event evs e j He).
  apply (job_ok_frame _ _ w); rewrite ?Hw, ?Hc, ?Ht; done.
Qed.

Lemma Inv_close evs w id c :
  workers w !! id = Some Alive ->
  Inv evs w ->
  Inv (evs ++ [EvClose id c]) (set_worker id Exited (StartRoute.on_close id c w)).
Proof.
  intros Hal [Hnd Hj].
  pose proof (Hj id) as Hid. unfold job_ok in Hid. rewrite Hal in Hid.
  destruct Hid as (Hi & Hp & Hnt & job & Hjob & Hs & Hpr).
  split.
  - simpl. rewrite fmap_app. simpl. apply NoDup_app. split; [done|]. split.
    + intros x Hx Hx'. apply list_elem_of_singleton in Hx'. by subst.
    + apply NoDup_singleton.
  - intros j. destruct (snoc_other_event evs (EvClose id c) j) as [Hi' Hp']; [done|].
    destruct (decide (j = id)) as [->|Hne].
    + unfold job_ok. simpl. rewrite lookup_insert_eq, Hi', Hp', Hi, Hp, Hjob.
      split; [done|]. left. split; [done|]. split.
      * rewrite fmap_app. set_solver.
      * eexists. rewrite lookup_insert_eq. split; [done|].
        unfold terminal_ok. case_bool_decide; simpl; [by left | by right].
    + apply (job_ok_frame _ _ w); try done; simpl.
      * by rewrite lookup_insert_ne.
      * rewrite Hjob. by rewrite lookup_insert_ne.
      * rewrite fmap_app. set_solver.
Qed.

Lemma Inv_cleanup evs w id l :
  take_timer id (now w) (timers w) = Some l ->
  Inv evs w ->
  Inv (evs ++ [EvCleanup id]) (StartRoute.on_cleanup id (set_timers l w)).
Proof.
  intros Htake [Hnd Hj].
  apply take_timer_spec in Htake as (d & l1 & l2 & Hl & -> & Hd).
  rewrite Hl, fmap_app, fmap_cons in Hnd. simpl in Hnd.
  apply NoDup_app in Hnd as (Hnd1 & Hdisj & Hnd2).
  apply NoDup_cons in Hnd2 as [Hnot2 Hnd2].
  assert (Hnot1 : id ∉ l1.*2).
  { intros Hin. apply (Hdisj id Hin). set_solver. }
  split.
  - simpl. rewrite fmap_app. apply NoDup_app. repeat split; [done| |done].
    intros x Hx Hx'. apply (Hdisj x Hx). set_solver.
  - intros j. specialize (Hj j). unfold job_ok in *.
    rewrite issued_in_snoc, purged_in_snoc, orb_false_r. simpl.
    destruct (decide (j = id)) as [->|Hne].
    + rewrite String.eqb_refl, orb_true_r, lookup_delete_eq, fmap_app.
      assert (Hin : id ∈ (timers w).*2) by (rewrite Hl, fmap_app; set_solver).
      destruct (workers w !! id) as [[]|].
      * by destruct Hj as (_ & _ & ? & _).
      * destruct Hj as [Hi _]. split; [done|]. right. set_solver.
      * by destruct Hj as (_ & _ & _ & ?).
    + destruct (String.eqb_spec id j) as [|_]; [congruence|]. rewrite orb_false_r.
      rewrite lookup_delete_ne by done.
      assert (Hiff : j ∈ (l1 ++ l2).*2 <-> j ∈ (timers w).*2).
      { rewrite Hl, !fmap_app, fmap_cons. set_solver. }
      destruct (workers w !! j) as [[]|]; rewrite ?Hiff; done.
Qed.


Lemma status_frame (req : StatusRoute.Request) (w : World) :
  activeCrawls (StatusRoute.GET req w).2 = activeCrawls w /\
  workers (StatusRoute.GET req w).2 = workers w /\
  timers (StatusRoute.GET req w).2 = timers w /\
  now (StatusRoute.GET req w).2 = now w /\
  spawned (StatusRoute.GET req w).2 = spawned w.
Proof.
  unfold StatusRoute.GET, StatusRoute.getActiveCrawls.
  destruct (authorize (StatusRoute.session req)); [done|].
  destruct (negb (truthy (StatusRoute.jobIdParam req))); [done|].
  by destruct (activeCrawls w !! default "" (StatusRoute.jobIdParam req)).
Qed.

Lemma Inv_step evs w e w' :
  Inv evs w -> step w e = Some w' -> Inv (evs ++ [e]) w'.
Proof.
  intros HI Hstep. destruct e as [req uuid|id data|id data|id c|id|dt|req]; simpl in Hstep.
  - case_bool_decide as Hf; [|done]. injection Hstep as <-. by apply Inv_start.
  - destruct (alive id w) eqn:Ha; [|done]. injection Hstep as <-.
    apply Inv_stdout; [by apply alive_spec | done].
  - destruct (alive id w) eqn:Ha; [|done]. injection Hstep as <-.
    by apply (Inv_unobserved _ _ w).
  - destruct (alive id w) eqn:Ha; [|done]. injection Hstep as <-.
    apply Inv_close; [by apply alive_spec | done].
  - destruct (take_timer id (now w) (timers w)) as [l|] eqn:Ht; [|done].
    injection Hstep as <-. by apply Inv_cleanup.
  - destruct (0 <=? dt); [|done]. injection Hstep as <-.
    by apply (Inv_unobserved _ _ w).
  - injection Hstep as <-.
    destruct (status_frame req w) as (Hc & Hw & Ht & _).
    by apply (Inv_unobserved _ _ w).
Qed.

Lemma Inv_init : Inv [] init.
Proof. split; [apply NoDup_nil_2|]. intros j. unfold job_ok. simpl.
  rewrite !lookup_empty. repeat split; try done. apply not_elem_of_nil. Qed.

Lemma Inv_run evs w : run init evs = Some w -> Inv evs w.
Proof.
  revert w. induction evs as [|e evs IH] using rev_ind; intros w Hrun.
  - injection Hrun as <-. apply Inv_init.
  - apply run_snoc in Hrun as (w1 & Hrun & Hstep). by eapply Inv_step; [apply IH|].
Qed.

(** The registry holds a record for [j] exactly when [j] was issued and
    has not been purged. *)
Lemma registry_lookup evs w j :
  Inv evs w ->
  (activeCrawls w !! j = None <-> issued_in evs j = false \/ purged_in evs j = true).
Proof.
  intros [_ Hj]. specialize (Hj j). unfold job_ok in Hj.
  destruct (workers w !! j) as [[]|].
  - destruct Hj as (Hi & Hp & _ & job & -> & _). rewrite Hi, Hp. split; [done|]. by intros [|].
  - destruct Hj as (Hi & [(Hp & _ & job & -> & _) | (Hp & -> & _)]); rewrite Hi, Hp.
    + split; [done|]. by intros [|].
    + split; [by right | done].
  - destruct Hj as (Hi & Hp & -> & _). rewrite Hi. split; [by left|done].
Qed.

(** What one event does to the record of a job. *)
Lemma step_job evs w e w' j job job' :
  Inv evs w -> step w e = Some w' ->
  activeCrawls w !! j = Some job -> activeCrawls w' !! j = Some job' ->
  job' = job \/
  (status job = running /\ status job' = running /\
   (exists data, e = EvStdout j data) /\ progress job' ∈ [25; 50; 75; 90]) \/
  (status job = running /\ progress job <= 90 /\
   ((e = EvClose j (Some 0) /\ status job' = completed /\ progress job' = 100) \/
    (exists c, e = EvClose j c /\ c <> Some 0 /\ status job' = failed /\ progress job' = 0))).
Proof.
  intros [Hnd HI] Hstep Hjob Hjob'.
  pose proof (HI j) as Hj. unfold job_ok in Hj.
  destruct e as [req uuid|id data|id data|id c|id|dt|req]; simpl in Hstep.
  - case_bool_decide as Hf; [|done]. injection Hstep as <-.
    destruct (POST_cases req uuid w) as [[_ Hw] | (_ & op & _ & _ & Hw)];
      rewrite Hw in Hjob'; [left; congruence|].
    simpl in Hjob'. destruct (decide (uuid = j)) as [->|Hne].
    + rewrite Hf in Hj. destruct Hj as (_ & _ & Hn & _). congruence.
    + rewrite lookup_insert_ne in Hjob' by done. left; congruence.
  - destruct (alive id w) eqn:Ha; [|done]. injection Hstep as <-.
    apply alive_spec in Ha.
    destruct (decide (id = j)) as [->|Hne].
    + rewrite Ha in Hj. destruct Hj as (_ & _ & _ & job0 & Hjob0 & Hs & Hp).
      assert (job0 = job) by congruence. subst job0.
      destruct (on_stdout_lookup j data w job Hjob) as (j' & Hm & _ & _ & Hs' & _ & _ & Hpr).
      rewrite Hm, lookup_insert_eq in Hjob'. injection Hjob' as ->.
      destruct Hpr as [-> | Hpr]; [by left|]. right. left.
      repeat split; [done | congruence | by eexists | done].
    + destruct (on_stdout_frame id data w) as (_ & _ & _ & _ & Ho).
      rewrite Ho in Hjob' by done. left; congruence.
  - destruct (alive id w) eqn:Ha; [|done]. injection Hstep as <-.
    left. unfold StartRoute.on_stderr in Hjob'. congruence.
  - destruct (alive id w) eqn:Ha; [|done]. injection Hstep as <-.
    apply alive_spec in Ha. simpl in Hjob'.
    destruct (decide (id = j)) as [->|Hne].
    + rewrite Ha in Hj. destruct Hj as (_ & _ & _ & job0 & Hjob0 & Hs & Hp).
      assert (job0 = job) by congruence. subst job0.
      assert (Hle : progress job <= 90).
      { unfold milestones in Hp. set_unfold in Hp. lia. }
      rewrite Hjob, lookup_insert_eq in Hjob'. injection Hjob' as <-.
      right. right. repeat (split; [done|]).
      case_bool_decide as Hc; [left | right]; simpl.
      * by subst.
      * by exists c.
    + left. destruct (activeCrawls w !! id);
        [rewrite lookup_insert_ne in Hjob' by done|]; congruence.
  - destruct (take_timer id (now w) (timers w)) as [l|] eqn:Ht; [|done].
    injection Hstep as <-. simpl in Hjob'.
    destruct (decide (id = j)) as [->|Hne].
    + by rewrite lookup_delete_eq in Hjob'.
    + rewrite lookup_delete_ne in Hjob' by done. left; congruence.
  - destruct (0 <=? dt); [|done]. injection Hstep as <-. left. simpl in Hjob'. congruence.
  - injection Hstep as <-. destruct (status_frame req w) as (Hc & _).
    rewrite Hc in Hjob'. left; congruence.
Qed.


Lemma take_timer_enabled (id : string) (t d : Z) (l : list (Z * string)) :
  (d, id) ∈ l -> d <= t -> is_Some (take_timer id t l).
Proof.
  induction l as [|[d' i] l IH]; intros Hin Hd; [by apply elem_of_nil in Hin|].
  simpl. destruct (String.eqb_spec i id) as [->|Hne]; simpl.
  - destruct (Z.leb_spec d' t); [by eexists|].
    apply elem_of_cons in Hin as [[= -> ]|Hin]; [lia|].
    destruct (IH Hin Hd) as [l' ->]. by eexists.
  - apply elem_of_cons in Hin as [[= _ ->]|Hin]; [done|].
    destruct (IH Hin Hd) as [l' ->]. by eexists.
Qed.

Lemma now_step w e w' : step w e = Some w' -> now w <= now w'.
Proof.
  destruct e as [req uuid|id data|id data|id c|id|dt|req]; simpl; intros Hstep.
  - case_bool_decide; [|done]. injection Hstep as <-.
    destruct (POST_cases req uuid w) as [[_ ->] | (_ & op & _ & _ & ->)]; apply Z.le_refl.
  - destruct (alive id w); [|done]. injection Hstep as <-.
    destruct (on_stdout_frame id data w) as (_ & _ & -> & _). apply Z.le_refl.
  - destruct (alive id w); [|done]. injection Hstep as <-. apply Z.le_refl.
  - destruct (alive id w); [|done]. injection Hstep as <-. simpl. lia.
  - destruct (take_timer id (now w) (timers w)); [|done]. injection Hstep as <-. simpl. lia.
  - destruct (Z.leb_spec 0 dt); [|done]. injection Hstep as <-. simpl. lia.
  - injection Hstep as <-. destruct (status_frame req w) as (_ & _ & _ & -> & _). lia.
Qed.

Lemma now_run w evs w' : run w evs = Some w' -> now w <= now w'.
Proof.
  revert w. induction evs as [|e evs IH]; intros w; simpl.
  - intros [= <-]. lia.
  - destruct (step w e) as [w1|] eqn:E; [|done]. intros Hr.
    apply now_step in E. apply IH in Hr. lia.
Qed.

Lemma retained_close evs w id c w1 :
  Inv evs w -> step w (EvClose id c) = Some w1 ->
  retained id (now w + RETENTION_MS) w1.
Proof.
  intros [_ HI] Hstep. simpl in Hstep.
  destruct (alive id w) eqn:Ha; [|done]. injection Hstep as <-.
  apply alive_spec in Ha. specialize (HI id). unfold job_ok in HI. rewrite Ha in HI.
  destruct HI as (_ & _ & Hnt & job & Hjob & _).
  unfold retained. simpl. rewrite lookup_insert_eq, Hjob, lookup_insert_eq.
  split; [done|]. split.
  { eexists. split; [done|]. by case_bool_decide. }
  split.
  - apply elem_of_app. right. by apply list_elem_of_singleton.
  - intros d Hd. apply elem_of_app in Hd as [Hd|Hd].
    + exfalso. apply Hnt. apply list_elem_of_fmap. by exists (d, id).
    + apply list_elem_of_singleton in Hd. congruence.
Qed.

Lemma retained_step j D w e w' :
  retained j D w -> step w e = Some w' -> e <> EvCleanup j -> retained j D w'.
Proof.
  intros (Hw & Hjob & Hin & Honly) Hstep Hne. unfold retained.
  destruct e as [req uuid|id data|id data|id c|id|dt|req]; simpl in Hstep.
  - case_bool_decide as Hf; [|done]. injection Hstep as <-.
    assert (uuid <> j) by congruence.
    destruct (POST_cases req uuid w) as [[_ ->] | (_ & op & _ & _ & ->)]; [done|].
    simpl. by rewrite !lookup_insert_ne.
  - destruct (alive id w) eqn:Ha; [|done]. injection Hstep as <-.
    apply alive_spec in Ha. assert (id <> j) by congruence.
    destruct (on_stdout_frame id data w) as (-> & -> & _ & _ & Ho).
    by rewrite Ho.
  - destruct (alive id w) eqn:Ha; [|done]. by injection Hstep as <-.
  - destruct (alive id w) eqn:Ha; [|done]. injection Hstep as <-.
    apply alive_spec in Ha. assert (id <> j) by congruence. simpl.
    rewrite lookup_insert_ne by done. split; [done|]. split.
    { destruct (activeCrawls w !! id); [by rewrite lookup_insert_ne|done]. }
    split.
    + apply elem_of_app. by left.
    + intros d Hd. apply elem_of_app in Hd as [Hd|Hd]; [by apply Honly|].
      apply list_elem_of_singleton in Hd. congruence.
  - destruct (take_timer id (now w) (timers w)) as [l|] eqn:Ht; [|done].
    injection Hstep as <-. assert (id <> j) by congruence. simpl.
    apply take_timer_spec in Ht as (d & l1 & l2 & Hl & -> & _).
    rewrite lookup_delete_ne by done. rewrite Hl in Hin, Honly.
    repeat (split; [done|]). split.
    + set_unfold. naive_solver.
    + intros d' Hd'. apply Honly. set_unfold. naive_solver.
  - destruct (0 <=? dt); [|done]. by injection Hstep as <-.
  - injection Hstep as <-.
    destruct (status_frame req w) as (-> & -> & -> & _). done.
Qed.

Lemma retained_cleanup j D w w' :
  retained j D w -> step w (EvCleanup j) = Some w' -> D <= now w.
Proof.
  intros (_ & _ & _ & Honly) Hstep. simpl in Hstep.
  destruct (take_timer j (now w) (timers w)) as [l|] eqn:Ht; [|done].
  apply take_timer_spec in Ht as (d & l1 & l2 & Hl & _ & Hd).
  assert (d = D); [|lia]. apply Honly. rewrite Hl. set_solver.
Qed.

Lemma event_is_cleanup (e : Event) (j : string) :
  {e = EvCleanup j} + {e <> EvCleanup j}.
Proof.
  destruct e as [| | | |id| |]; try (right; discriminate).
  destruct (decide (id = j)) as [->|Hne]; [by left | right; congruence].
Qed.

Lemma retained_before_deadline j D w evs w' :
  retained j D w -> run w evs = Some w' -> now w' < D -> retained j D w'.
Proof.
  revert w. induction evs as [|e evs IH]; intros w Hr; simpl.
  - by intros [= <-].
  - destruct (step w e) as [w1|] eqn:E; [|done]. intros Hrun Hnow.
    apply (IH w1); [|done|done].
    destruct (event_is_cleanup e j) as [->|Hne].
    + apply (retained_cleanup j D w w1 Hr) in E as Hd.
      apply now_step in E. apply now_run in Hrun. lia.
    + by apply (retained_step j D w e).
Qed.

Lemma retained_until_cleanup j D w evs w' :
  retained j D w -> run w evs = Some w' -> purged_in evs j = false -> retained j D w'.
Proof.
  revert w. induction evs as [|e evs IH]; intros w Hr; simpl.
  - by intros [= <-].
  - destruct (step w e) as [w1|] eqn:E; [|done]. intros Hrun Hp.
    apply orb_false_iff in Hp as [He Hp].
    apply (IH w1); [|done|done].
    apply (retained_step j D w e); [done|done|].
    intros ->. by rewrite String.eqb_refl in He.
Qed.

Lemma retained_cleanup_enabled j D w :
  retained j D w -> D <= now w ->
  exists w', step w (EvCleanup j) = Some w' /\ activeCrawls w' !! j = None.
Proof.
  intros (_ & _ & Hin & _) Hd. simpl.
  destruct (take_timer_enabled j (now w) D (timers w) Hin Hd) as [l ->].
  eexists. split; [done|]. simpl. apply lookup_delete_eq.
Qed.

(** ** Properties of the job registry *)

Lemma job_shape (evs : list Event) (w : World) (j : string) (job : CrawlJob) :
  Inv evs w ->
  activeCrawls w !! j = Some job ->
  (status job = running -> progress job ∈ [0; 25; 50; 75; 90]) /\
  (progress job = 100 <-> status job = completed) /\
  (status job = failed -> progress job = 0).
Proof.
  intros [_ HI] Hjob.
  specialize (HI j). unfold job_ok in HI.
  destruct (workers w !! j) as [[]|].
  - destruct HI as (_ & _ & _ & job0 & Hjob0 & Hs & Hp).
    assert (job0 = job) by congruence. subst job0.
    split; [done|]. rewrite Hs. split; [|done]. split; [|done].
    intros H100. rewrite H100 in Hp. unfold milestones in Hp. set_unfold in Hp. lia.
  - destruct HI as (_ & [(_ & _ & job0 & Hjob0 & Ht) | (_ & Hn & _)]); [|congruence].
    assert (job0 = job) by congruence. subst job0.
    destruct Ht as [(Hs & Hp & _) | (Hs & Hp)]; rewrite Hs, Hp; repeat split; done.
  - destruct HI as (_ & _ & Hn & _). congruence.
Qed.

(** C9. After any trace, a job whose status is [running] has one of the
    progress values 0, 25, 50, 75, 90; a progress of 100 is only found on a
    [completed] job (and a completed job has it); a [failed] job has
    progress 0. *)
Theorem progress_is_a_milestone
  (evs : list Event) (w : World) (j : string) (job : CrawlJob) :
  run init evs = Some w ->
  activeCrawls w !! j = Some job ->
  (status job = running -> progress job ∈ [0; 25; 50; 75; 90]) /\
  (progress job = 100 <-> status job = completed) /\
  (status job = failed -> progress job = 0).
Proof.
  intros Hrun Hjob. apply Inv_run in Hrun. by apply (job_shape evs w j).
Qed.

Lemma progress_is_a_milestone_witness :
  let evs := [EvStart (StartRoute.mkRequest admin (Some "daily-update")) "job-1";
              EvStdout "job-1" "INFO Crawling AWS YouTube channels"] in
  let job := mkJob "job-1" "daily-update" running 50 "Crawling YouTube videos..."
               None None in
  run init evs ≫= (fun w => activeCrawls w !! "job-1") = Some job /\
  progress job ∈ [0; 25; 50; 75; 90].
Proof.
  intros evs job.
  assert (Hrun : run init evs = Some (default init (run init evs)))
    by (vm_compute; reflexivity).
  assert (Hjob : activeCrawls (default init (run init evs)) !! "job-1" = Some job)
    by (vm_compute; reflexivity).
  split.
  - rewrite Hrun. exact Hjob.
  - by apply (progress_is_a_milestone evs _ "job-1" job Hrun Hjob).
Defined.

Lemma status_le_refl (s : JobStatus) : status_le s s = true.
Proof. by destruct s. Qed.

Lemma status_le_trans (a b c : JobStatus) :
  status_le a b = true -> status_le b c = true -> status_le a c = true.
Proof. by destruct a, b, c. Qed.

Lemma issued_in_app (evs evs' : list Event) (j : string) :
  issued_in (evs ++ evs') j = issued_in evs j || issued_in evs' j.
Proof. unfold issued_in. apply existsb_app. Qed.

Lemma purged_in_app (evs evs' : list Event) (j : string) :
  purged_in (evs ++ evs') j = purged_in evs j || purged_in evs' j.
Proof. unfold purged_in. apply existsb_app. Qed.

Lemma Inv_run_from (evs evs' : list Event) (w w' : World) :
  Inv evs w -> run w evs' = Some w' -> Inv (evs ++ evs') w'.
Proof.
  revert evs w. induction evs' as [|e evs' IH]; intros evs w HI; simpl.
  - intros [= <-]. by rewrite app_nil_r.
  - destruct (step w e) as [w1|] eqn:E; [|done]. intros Hrun.
    rewrite (cons_middle e evs evs'), app_assoc.
    apply (IH _ w1); [|done]. by apply (Inv_step evs w).
Qed.

(** A record that is in the registry before and after a run was there all
    along, and its status only moved forward. *)
Lemma status_run (evs evs' : list Event) (w w' : World) (j : string)
  (job job' : CrawlJob) :
  Inv evs w -> run w evs' = Some w' ->
  activeCrawls w !! j = Some job -> activeCrawls w' !! j = Some job' ->
  status_le (status job) (status job') = true.
Proof.
  revert evs w job. induction evs' as [|e evs' IH]; intros evs w job HI; simpl.
  - intros [= <-] Hj Hj'. assert (job' = job) by congruence. subst.
    apply status_le_refl.
  - destruct (step w e) as [w1|] eqn:E; [|done]. intros Hrun Hj Hj'.
    pose proof (Inv_step evs w e w1 HI E) as HI1.
    destruct (activeCrawls w1 !! j) as [job1|] eqn:Hj1.
    + apply (status_le_trans _ (status job1)).
      * destruct (step_job evs w e w1 j job job1 HI E Hj Hj1)
          as [-> | [(Hs & Hs' & _) | (Hs & _)]].
        -- apply status_le_refl.
        -- by rewrite Hs.
        -- by rewrite Hs.
      * by apply (IH (evs ++ [e]) w1 job1).
    + exfalso.
      pose proof (Inv_run_from _ _ _ _ HI1 Hrun) as HI2.
      apply (registry_lookup _ _ j) in HI1. apply HI1 in Hj1.
      assert (Hn : activeCrawls w' !! j <> None) by congruence.
      apply Hn. apply (registry_lookup _ _ j HI2).
      rewrite purged_in_app.
      destruct Hj1 as [Hi | Hp]; [|right; by rewrite Hp].
      exfalso. rewrite issued_in_snoc in Hi. apply orb_false_iff in Hi as [Hi _].
      assert (Hn0 : activeCrawls w !! j <> None) by congruence.
      apply Hn0. apply (registry_lookup _ _ j HI). by left.
Qed.

Lemma progress_le_100 (evs : list Event) (w : World) (j : string) (job : CrawlJob) :
  Inv evs w -> activeCrawls w !! j = Some job -> 0 <= progress job <= 100.
Proof.
  intros HI Hj. destruct (job_shape evs w j job HI Hj) as (Hr & [_ Hc] & Hf).
  destruct (status job).
  - specialize (Hr eq_refl). set_unfold in Hr. lia.
  - specialize (Hc eq_refl). lia.
  - specialize (Hf eq_refl). lia.
Qed.

(** Which marker sets which milestone: the first of the four that the
    trimmed chunk contains, in the order of the handler's tests. *)
Lemma stage_marker_progress (id data : string) (w : World) (job : CrawlJob) :
  activeCrawls w !! id = Some job ->
  progress <$> activeCrawls (StartRoute.on_stdout id data w) !! id
  = Some (if includes (trim data) "Crawling AWS Blogs" then 25
          else if includes (trim data) "Crawling AWS YouTube" then 50
          else if includes (trim data) "Crawling AWS Documentation" then 75
          else if includes (trim data) "Processing content" then 90
          else progress job).
Proof.
  intros Hj. unfold StartRoute.on_stdout. rewrite Hj. simpl.
  rewrite lookup_insert_eq. simpl. by repeat case_match.
Qed.

(** What one event does to the progress of a job that is running after
    it: a chunk of its worker's output that contains a marker assigns the
    marker's milestone, every other event leaves the value. *)
Lemma progress_step evs w e w' j job job' :
  Inv evs w -> step w e = Some w' ->
  activeCrawls w !! j = Some job -> activeCrawls w' !! j = Some job' ->
  status job' = running ->
  progress job' = default (progress job) (sets j e).
Proof.
  intros HI Hstep Hjob Hjob' Hs'.
  assert (Hother : sets j e = None -> progress job' = progress job).
  { intros Hn.
    destruct (step_job _ _ _ _ _ _ _ HI Hstep Hjob Hjob')
      as [-> | [(_ & _ & [data ->] & _) | (_ & _ & Hc)]]; [done| |].
    - simpl in Hstep. destruct (alive j w); [|done]. injection Hstep as <-.
      unfold StartRoute.on_stdout in Hjob'. rewrite Hjob in Hjob'. simpl in Hjob'.
      rewrite lookup_insert_eq in Hjob'. injection Hjob' as <-.
      simpl in Hn. rewrite String.eqb_refl in Hn. unfold milestone_of in Hn.
      by repeat case_match.
    - destruct Hc as [(_ & Hs & _) | (c & _ & _ & Hs & _)]; congruence. }
  destruct (sets j e) as [m|] eqn:Hm; [|by apply Hother].
  destruct e as [req uuid|id data|id data|id c|id|dt|req]; try discriminate.
  simpl in Hm. destruct (String.eqb_spec id j) as [->|]; [|done].
  simpl in Hstep. destruct (alive j w); [|done]. injection Hstep as <-.
  unfold StartRoute.on_stdout in Hjob'. rewrite Hjob in Hjob'. simpl in Hjob'.
  rewrite lookup_insert_eq in Hjob'. injection Hjob' as <-.
  unfold milestone_of in Hm. simpl.
  repeat case_match; simpl; congruence.
Qed.

(** The worker of a job lives until its close event. *)
Lemma worker_step w e w' j :
  workers w !! j = Some Alive -> step w e = Some w' ->
  (workers w' !! j = Some Alive /\ forall c, e <> EvClose j c) \/
  ((exists c, e = EvClose j c) /\ workers w' !! j = Some Exited).
Proof.
  intros Ha Hstep.
  destruct e as [req uuid|id data|id data|id c|id|dt|req]; simpl in Hstep.
  - case_bool_decide as Hf; [|done]. injection Hstep as <-. left. split; [|done].
    destruct (POST_cases req uuid w) as [[_ ->] | (_ & op & _ & _ & ->)]; [done|].
    simpl. rewrite lookup_insert_ne; [done|]. intros ->. congruence.
  - destruct (alive id w); [|done]. injection Hstep as <-. left. split; [|done].
    by destruct (on_stdout_frame id data w) as (-> & _).
  - destruct (alive id w); [|done]. injection Hstep as <-. by left.
  - destruct (alive id w); [|done]. injection Hstep as <-. simpl.
    destruct (decide (id = j)) as [->|Hne].
    + right. split; [by eexists|]. by rewrite lookup_insert_eq.
    + left. split; [by rewrite lookup_insert_ne | congruence].
  - destruct (take_timer id (now w) (timers w)); [|done]. injection Hstep as <-.
    by left.
  - destruct (0 <=? dt); [|done]. injection Hstep as <-. by left.
  - injection Hstep as <-. left. split; [|done].
    by destruct (status_frame req w) as (_ & -> & _).
Qed.

(** A worker that has ended stays so, and writes nothing more. *)
Lemma exited_step w e w' j :
  workers w !! j = Some Exited -> step w e = Some w' ->
  workers w' !! j = Some Exited /\ sets j e = None.
Proof.
  intros Hx Hstep.
  assert (Hal : alive j w = false).
  { apply not_true_iff_false. rewrite alive_spec. congruence. }
  destruct e as [req uuid|id data|id data|id c|id|dt|req]; simpl in Hstep.
  - case_bool_decide as Hf; [|done]. injection Hstep as <-. split; [|done].
    destruct (POST_cases req uuid w) as [[_ ->] | (_ & op & _ & _ & ->)]; [done|].
    simpl. rewrite lookup_insert_ne; [done|]. intros ->. congruence.
  - destruct (alive id w) eqn:Ha; [|done]. injection Hstep as <-. split.
    + by destruct (on_stdout_frame id data w) as (-> & _).
    + simpl. destruct (String.eqb_spec id j) as [->|]; [congruence | done].
  - destruct (alive id w); [|done]. injection Hstep as <-. done.
  - destruct (alive id w) eqn:Ha; [|done]. injection Hstep as <-. simpl.
    split; [|done]. rewrite lookup_insert_ne; [done|]. intros ->. congruence.
  - destruct (take_timer id (now w) (timers w)); [|done]. injection Hstep as <-. done.
  - destruct (0 <=? dt); [|done]. injection Hstep as <-. done.
  - injection Hstep as <-. split; [|done].
    by destruct (status_frame req w) as (_ & -> & _).
Qed.

(** After the worker has ended no poll reads a running job and no stage is
    announced. *)
Lemma polls_after_exit evs' evs w w' j :
  Inv evs w -> workers w !! j = Some Exited -> run w evs' = Some w' ->
  stages j evs' = [] /\ running_progress (observe j w evs') = [].
Proof.
  revert evs w. induction evs' as [|e evs' IH]; intros evs w HI Hx Hrun; [done|].
  simpl in Hrun. destruct (step w e) as [w1|] eqn:E; [|done].
  destruct (exited_step w e w1 j Hx E) as [Hx1 Hn].
  pose proof (Inv_step evs w e w1 HI E) as HI1.
  destruct (IH _ _ HI1 Hx1 Hrun) as [Hst Hob].
  unfold stages in *. simpl. rewrite Hn, E. split; [done|].
  destruct (activeCrawls w1 !! j) as [job1|] eqn:Hj1; [|done].
  unfold running_progress in *. simpl.
  destruct HI1 as [_ HI1]. specialize (HI1 j). unfold job_ok in HI1.
  rewrite Hx1 in HI1.
  destruct HI1 as (_ & [(_ & _ & job0 & Hjob0 & Ht) | (_ & Hnone & _)]); [|congruence].
  assert (job0 = job1) by congruence. subst job0.
  rewrite bool_decide_eq_false_2; [done|].
  destruct Ht as [(-> & _) | (-> & _)]; done.
Qed.

Lemma nondecreasing_cons (x y : Z) (l : list Z) :
  nondecreasing (x :: y :: l) = (x <=? y) && nondecreasing (y :: l).
Proof. done. Qed.

(** While the worker lives, the values that polls read are the milestones
    of the stages announced, each repeated until the next. *)
Lemma polls_while_alive evs' evs w w' j job :
  Inv evs w -> workers w !! j = Some Alive ->
  activeCrawls w !! j = Some job -> run w evs' = Some w' ->
  nondecreasing (progress job :: running_progress (observe j w evs'))
  = nondecreasing (progress job :: stages j evs').
Proof.
  revert evs w job. induction evs' as [|e evs' IH]; intros evs w job HI Ha Hjob Hrun;
    [done|].
  simpl in Hrun. destruct (step w e) as [w1|] eqn:E; [|done].
  pose proof (Inv_step evs w e w1 HI E) as HI1.
  pose proof HI1 as [_ Hj1]. specialize (Hj1 j). unfold job_ok in Hj1.
  cbn [observe]. rewrite E.
  destruct (worker_step w e w1 j Ha E) as [[Ha1 _] | [[c ->] Hx1]].
  - rewrite Ha1 in Hj1. destruct Hj1 as (_ & _ & _ & job1 & Hjob1 & Hs1 & _).
    rewrite Hjob1.
    pose proof (progress_step _ _ _ _ _ _ _ HI E Hjob Hjob1 Hs1) as Hp.
    specialize (IH _ _ job1 HI1 Ha1 Hjob1 Hrun).
    unfold running_progress in *. cbn [omap list_omap fst snd].
    rewrite bool_decide_eq_true_2 by done.
    unfold stages in *. cbn [omap list_omap].
    destruct (sets j e) as [m|]; simpl in Hp.
    + rewrite !nondecreasing_cons, <- Hp. f_equal. exact IH.
    + rewrite nondecreasing_cons, Hp, Z.leb_refl. rewrite Hp in IH. exact IH.
  - destruct (polls_after_exit evs' _ w1 w' j HI1 Hx1 Hrun) as [Hst Hob].
    rewrite Hx1 in Hj1.
    unfold stages in *. cbn [omap list_omap sets]. rewrite Hst.
    unfold running_progress in *.
    destruct (activeCrawls w1 !! j) as [job1|] eqn:Hjob1.
    + destruct Hj1 as (_ & [(_ & _ & job0 & Hjob0 & Ht) | (_ & Hnone & _)]); [|congruence].
      assert (job0 = job1) by congruence. subst job0.
      cbn [omap list_omap fst snd]. rewrite bool_decide_eq_false_2.
      * by rewrite Hob.
      * destruct Ht as [(-> & _) | (-> & _)]; done.
    + by rewrite Hob.
Qed.

(** C2, as the code has it. The status of a job is monotonic over any
    sequence of polls: from [running] it may become [completed] or
    [failed], a terminal status never changes; completion sets progress to
    100, which is not below any value read earlier; failure resets it to 0.
    Progress is set, not raised: while the job runs, a chunk of its
    worker's output that contains a stage marker sets progress to the
    milestone of the first marker it contains in the order of the
    handler's tests (Blogs 25, YouTube 50, Documentation 75, Processing
    90), whatever it was before, and every other event leaves it as it
    was. So the values read by a client that polls after every event
    while the job runs are non-decreasing exactly when the milestones of
    the successive marker-bearing chunks, after the current value, are. *)
Theorem status_monotone_progress_set_by_stage
  (evs : list Event) (w : World) (j : string) (job : CrawlJob) :
  run init evs = Some w ->
  activeCrawls w !! j = Some job ->
  (forall evs' w' job',
      run w evs' = Some w' -> activeCrawls w' !! j = Some job' ->
      status_le (status job) (status job') = true /\
      (status job' = completed ->
         progress job' = 100 /\ progress job <= progress job') /\
      (status job' = failed -> progress job' = 0)) /\
  (forall e w' job',
      step w e = Some w' -> activeCrawls w' !! j = Some job' ->
      status job' = running ->
      (forall data m, e = EvStdout j data -> milestone_of data = Some m ->
         progress job' = m /\ m ∈ [25; 50; 75; 90]) /\
      (forall data, e = EvStdout j data -> milestone_of data = None ->
         progress job' = progress job) /\
      ((forall data, e <> EvStdout j data) -> progress job' = progress job)) /\
  (forall evs' w',
      run w evs' = Some w' ->
      nondecreasing (progress job :: running_progress (observe j w evs'))
      = nondecreasing (progress job :: stages j evs')).
Proof.
  intros Hrun Hjob. apply Inv_run in Hrun. split; [|split].
  - intros evs' w' job' Hrun' Hjob'.
    pose proof (Inv_run_from _ _ _ _ Hrun Hrun') as HI'.
    destruct (job_shape _ _ _ _ HI' Hjob') as (_ & [_ H100] & H0).
    split; [by apply (status_run evs evs' w w' j)|]. split; [|done].
    intros Hc. rewrite (H100 Hc). split; [done|].
    by apply (progress_le_100 evs w j job).
  - intros e w' job' Hstep Hjob' Hs'.
    pose proof (progress_step _ _ _ _ _ _ _ Hrun Hstep Hjob Hjob' Hs') as Hp.
    split; [|split].
    + intros data m -> Hm. simpl in Hp. rewrite String.eqb_refl, Hm in Hp.
      split; [done|]. unfold milestone_of in Hm.
      repeat case_match; try discriminate; injection Hm as <-; set_solver.
    + intros data -> Hm. simpl in Hp. by rewrite String.eqb_refl, Hm in Hp.
    + intros Hne. rewrite Hp.
      destruct e as [req uuid|id data|id data|id c|id|dt|req]; try done.
      simpl. destruct (String.eqb_spec id j) as [->|]; [|done].
      by destruct (Hne data).
  - intros evs' w' Hrun'.
    pose proof Hrun as [_ Hj]. specialize (Hj j). unfold job_ok in Hj.
    destruct (workers w !! j) as [[]|] eqn:Hw.
    + by apply (polls_while_alive evs' evs w w').
    + destruct (polls_after_exit evs' evs w w' j Hrun Hw Hrun') as [-> ->]. done.
    + destruct Hj as (_ & _ & Hn & _). congruence.
Qed.

Lemma status_monotone_progress_set_by_stage_witness :
  let evs := [EvStart (StartRoute.mkRequest admin (Some "full-crawl")) "job-1";
              EvStdout "job-1" "Crawling AWS Blogs"] in
  let e := EvStdout "job-1" "Processing content with Claude" in
  let job := mkJob "job-1" "full-crawl" running 25 "Crawling AWS Blogs..." None None in
  let job' := mkJob "job-1" "full-crawl" running 90 "Processing content with AI..."
                None None in
  run init (evs ++ [e]) ≫= (fun w => activeCrawls w !! "job-1") = Some job' /\
  status_le (status job) (status job') = true.
Proof.
  intros evs e job job'.
  set (w := default init (run init evs)).
  set (w' := default init (step w e)).
  assert (Hrun : run init evs = Some w) by (vm_compute; reflexivity).
  assert (Hrun' : run w [e] = Some w') by (vm_compute; reflexivity).
  assert (Hjob : activeCrawls w !! "job-1" = Some job) by (vm_compute; reflexivity).
  assert (Hjob' : activeCrawls w' !! "job-1" = Some job') by (vm_compute; reflexivity).
  split.
  - vm_compute. reflexivity.
  - destruct (status_monotone_progress_set_by_stage evs w "job-1" job Hrun Hjob)
      as [H _].
    by destruct (H [e] w' job' Hrun' Hjob') as [? _].
Defined.

(** C2, as the specification states it, fails: a client polling one job reads
    progress 75 and then 25 while the job is running, when the worker logs
    the documentation stage before the blog stage, and reads 0 after 25
    when the worker then exits with a non-zero code. *)
Lemma progress_is_lowered_by_earlier_stage_and_by_failure :
  let evs := [EvStart (StartRoute.mkRequest admin (Some "full-crawl")) "job-1";
              EvStdout "job-1" "Crawling AWS Documentation";
              EvStdout "job-1" "Crawling AWS Blogs";
              EvClose "job-1" (Some 1)] in
  observe "job-1" init evs
  = [(running, 0); (running, 75); (running, 25); (failed, 0)] /\
  nondecreasing (map snd (observe "job-1" init evs)) = false.
Proof. vm_compute. done. Qed.

Lemma GET_lookup (s : Session) (id : string) (w : World) :
  authorize s = None -> id <> "" ->
  (StatusRoute.GET (StatusRoute.mkRequest s (Some id)) w).1
  = match activeCrawls w !! id with
    | Some job => json (Snapshot job)
    | None => not_found
    end.
Proof.
  intros Hg Hid. unfold StatusRoute.GET. simpl. rewrite Hg.
  apply String.eqb_neq in Hid. rewrite Hid. simpl.
  by destruct (activeCrawls w !! id).
Qed.

(** C3, as the code has it. For an authorised requester, a status query
    whose job id is missing or empty is answered 400 (missing parameter)
    before the registry is consulted. For every non-empty job id, the
    query answers 404 (not found) exactly when the id was never issued or
    the job's clean-up has run, and answers with the job's snapshot
    otherwise. A job that has reached a terminal state stays in the
    registry for ten minutes: until then it is answered with its snapshot
    whatever else happens, it stays until its clean-up timer runs, and from
    then on the timer can run and removes it. *)
Theorem status_not_found_iff_unissued_or_purged
  (evs : list Event) (w : World) (s : Session) :
  run init evs = Some w ->
  authorize s = None ->
  (forall o, o = None \/ o = Some "" ->
     StatusRoute.GET (StatusRoute.mkRequest s o) w
     = (json_status (ErrorBody "Missing jobId parameter") 400, w)) /\
  (forall id, id <> "" ->
     let r := (StatusRoute.GET (StatusRoute.mkRequest s (Some id)) w).1 in
     (r = not_found <-> issued_in evs id = false \/ purged_in evs id = true) /\
     (r <> not_found ->
        exists job, activeCrawls w !! id = Some job /\ r = json (Snapshot job))) /\
  RETENTION_MS = 600000 /\
  (forall id c w1, step w (EvClose id c) = Some w1 ->
     kept_until id (now w + RETENTION_MS) w1 /\
     removed_after id (now w + RETENTION_MS) w1).
Proof.
  intros Hrun Hg. apply Inv_run in Hrun.
  split; [|split; [|split; [reflexivity|]]].
  - intros o [-> | ->]; unfold StatusRoute.GET; simpl; by rewrite Hg.
  - intros id Hid r. subst r. rewrite (GET_lookup s id w Hg Hid).
    pose proof (registry_lookup evs w id Hrun) as Hreg. split.
    + rewrite <- Hreg. destruct (activeCrawls w !! id); split; done.
    + destruct (activeCrawls w !! id) as [job|]; [eauto | done].
  - intros id c w1 Hclose.
    pose proof (retained_close evs w id c w1 Hrun Hclose) as Hret.
    split.
    + intros evs' w2 Hrun' Hnow.
      by destruct (retained_before_deadline _ _ _ _ _ Hret Hrun' Hnow) as (_ & ? & _).
    + intros evs' w2 Hrun' Hp.
      pose proof (retained_until_cleanup _ _ _ _ _ Hret Hrun' Hp) as Hret2.
      split.
      * destruct Hret2 as (_ & (job & -> & _) & _). by eexists.
      * by apply retained_cleanup_enabled.
Qed.

Lemma status_not_found_iff_unissued_or_purged_witness :
  let evs := [EvStart (StartRoute.mkRequest admin (Some "process-content")) "job-1";
              EvClose "job-1" (Some 0);
              EvTick 600000;
              EvCleanup "job-1"] in
  exists w, run init evs = Some w /\ poll "job-1" w = not_found.
Proof.
  intros evs. exists (default init (run init evs)).
  assert (Hrun : run init evs = Some (default init (run init evs)))
    by (vm_compute; reflexivity).
  split; [exact Hrun|].
  assert (Hg : authorize admin = None) by reflexivity.
  assert (Hid : "job-1" <> "") by discriminate.
  destruct (status_not_found_iff_unissued_or_purged evs _ admin Hrun Hg)
    as (_ & H & _).
  destruct (H "job-1" Hid) as [[_ H'] _].
  apply H'. right. reflexivity.
Defined.

(** C3, as the specification states it, fails at the empty job id: it was never
    issued, and the query is answered 400 (missing parameter), not 404. *)
Lemma empty_job_id_is_a_bad_request :
  issued_in [] "" = false /\
  StatusRoute.GET (StatusRoute.mkRequest admin (Some "")) init
  = (json_status (ErrorBody "Missing jobId parameter") 400, init).
Proof. split; reflexivity. Qed.

(** C1. When a worker exits with code 0 its job becomes [completed] with
    progress 100, and its [stats] are the four constants 0 whatever the
    worker has done and printed: the close handler never reads the
    worker's output. *)
Theorem normal_completion_reports_constant_stats
  (evs : list Event) (w w' : World) (id : string) :
  run init evs = Some w ->
  step w (EvClose id (Some 0)) = Some w' ->
  exists job,
    activeCrawls w' !! id = Some job /\
    status job = completed /\ progress job = 100 /\
    stats job = Some (Stats.mk 0 0 0 0).
Proof.
  intros Hrun Hstep. apply Inv_run in Hrun as [_ HI].
  simpl in Hstep. destruct (alive id w) eqn:Ha; [|done]. injection Hstep as <-.
  apply alive_spec in Ha. specialize (HI id). unfold job_ok in HI. rewrite Ha in HI.
  destruct HI as (_ & _ & _ & job & Hjob & _).
  simpl. rewrite Hjob, lookup_insert_eq. eexists. split; [done|]. done.
Qed.

Lemma normal_completion_reports_constant_stats_witness :
  let evs := [EvStart (StartRoute.mkRequest admin (Some "full-crawl")) "job-1";
              EvStdout "job-1" "Crawling AWS Blogs";
              EvStdout "job-1" "Summary: total_processed=12 successful=9 failed=1 duplicates=2"] in
  exists w w',
    run init evs = Some w /\
    step w (EvClose "job-1" (Some 0)) = Some w' /\
    exists job,
      activeCrawls w' !! "job-1" = Some job /\
      status job = completed /\ progress job = 100 /\
      stats job = Some (Stats.mk 0 0 0 0).
Proof.
  intros evs.
  set (w := default init (run init evs)).
  set (w' := default init (step w (EvClose "job-1" (Some 0)))).
  assert (Hrun : run init evs = Some w) by (vm_compute; reflexivity).
  assert (Hstep : step w (EvClose "job-1" (Some 0)) = Some w') by (vm_compute; reflexivity).
  exists w, w'. split; [exact Hrun|]. split; [exact Hstep|].
  exact (normal_completion_reports_constant_stats evs w w' "job-1" Hrun Hstep).
Defined.

(** * Beyond the specification: the callers and the neighbours of the routes *)

Lemma ask_authorized (statusText : string) (s : Session) (id : string) (w : World) :
  authorize s = None -> id <> "" ->
  ControlPanel.ask statusText s id w
  = match activeCrawls w !! id with
    | Some job => Answered true statusText (Snapshot job)
    | None => Answered false statusText (ErrorBody "Job not found or expired")
    end.
Proof.
  intros Hs Hid. unfold ControlPanel.ask. rewrite (GET_lookup s id w Hs Hid).
  by destruct (activeCrawls w !! id).
Qed.

Lemma authorize_Some (s : Session) (r : Response) :
  authorize s = Some r -> r = unauthorized \/ r = forbidden.
Proof.
  unfold authorize.
  destruct (authError s || negb (bool_decide (is_Some (user s)))).
  - intros [= <-]. by left.
  - destruct (negb (isAdmin (profile s))); [|done]. intros [= <-]. by right.
Qed.

Lemma ask_no_status (statusText : string) (s : Session) (id : string) (w : World) :
  authorize s <> None \/ id = "" \/ activeCrawls w !! id = None ->
  exists ok e, ControlPanel.ask statusText s id w = Answered ok statusText (ErrorBody e).
Proof.
  intros H. destruct (authorize s) as [r|] eqn:Hs.
  - unfold ControlPanel.ask, fetched, StatusRoute.GET.
    cbn [StatusRoute.session]. rewrite Hs.
    destruct (authorize_Some s r Hs) as [-> | ->]; by do 2 eexists.
  - destruct (decide (id = "")) as [-> | Hid].
    + unfold ControlPanel.ask, fetched, StatusRoute.GET.
      cbn [StatusRoute.session]. rewrite Hs. by do 2 eexists.
    + rewrite (ask_authorized statusText s id w Hs Hid).
      destruct H as [H | [H | ->]]; [done | done | by do 2 eexists].
Qed.

(** X1. While a job runs, a poll of the control panel shows the job's
    progress, except that a progress of 0 is shown as 50 ([data.progress ||
    50]): the panel shows one of 25, 50, 75, 90, never 0, and neither its
    running flag nor its poller changes. *)
Theorem panel_progress_while_running
  (evs : list Event) (w : World) (s : Session) (id : string) (job : CrawlJob)
  (t statusText : string) (p : ControlPanel.Panel) :
  run init evs = Some w ->
  authorize s = None ->
  id <> "" ->
  activeCrawls w !! id = Some job ->
  status job = running ->
  let p' := ControlPanel.poll id t (ControlPanel.ask statusText s id w) p in
  ControlPanel.progress (ControlPanel.status p')
    = (if progress job =? 0 then 50 else progress job) /\
  ControlPanel.progress (ControlPanel.status p') ∈ [25; 50; 75; 90] /\
  ControlPanel.isRunning (ControlPanel.status p')
    = ControlPanel.isRunning (ControlPanel.status p) /\
  ControlPanel.intervals p' = ControlPanel.intervals p.
Proof.
  intros Hrun Hs Hid Hjob Hst p'. subst p'.
  rewrite (ask_authorized statusText s id w Hs Hid), Hjob.
  unfold ControlPanel.poll. cbn [data_status data_progress]. rewrite Hst.
  cbn [ControlPanel.status ControlPanel.progress ControlPanel.isRunning
       ControlPanel.intervals].
  split; [done|]. split; [|done].
  apply Inv_run in Hrun.
  destruct (job_shape evs w id job Hrun Hjob) as (Hm & _ & _).
  specialize (Hm Hst). set_unfold in Hm.
  destruct Hm as [-> | [-> | [-> | [-> | [-> | []]]]]]; cbn; set_solver.
Qed.

Lemma panel_progress_while_running_witness :
  let evs := [EvStart (StartRoute.mkRequest admin (Some "daily-update")) "job-1"] in
  let w := default init (run init evs) in
  let p := ControlPanel.starting "daily-update" "10:00:00" ControlPanel.initial in
  ControlPanel.progress
    (ControlPanel.status
       (ControlPanel.poll "job-1" "10:00:02" (ControlPanel.ask "OK" admin "job-1" w) p))
  = 50.
Proof.
  intros evs w p.
  assert (Hrun : run init evs = Some w) by (vm_compute; reflexivity).
  assert (Hjob : activeCrawls w !! "job-1"
                 = Some (mkJob "job-1" "daily-update" running 0
                           "Starting daily-update..." None None))
    by (vm_compute; reflexivity).
  destruct (panel_progress_while_running evs w admin "job-1" _ "10:00:02" "OK" p
              Hrun eq_refl ltac:(discriminate) Hjob eq_refl) as [H _].
  exact H.
Defined.

(** X2. A poll that brings no job status changes nothing on the panel: the
    reply of the status route to a requester who is not an authenticated
    admin, to an empty id, or for a job that was never issued or has been
    purged (401, 403, 400, 404) leaves the panel exactly as it was, poller
    included; and a poll whose fetch throws stops the poller and leaves the
    status, hence the running flag, as it was. *)
Theorem poll_without_status_keeps_panel
  (evs : list Event) (w : World) (s : Session) (id t statusText : string)
  (p : ControlPanel.Panel) :
  run init evs = Some w ->
  authorize s <> None \/ id = "" \/ issued_in evs id = false \/ purged_in evs id = true ->
  ControlPanel.poll id t (ControlPanel.ask statusText s id w) p = p /\
  forall e,
    ControlPanel.status (ControlPanel.poll id t (Threw e) p) = ControlPanel.status p /\
    ControlPanel.intervals (ControlPanel.poll id t (Threw e) p)
    = ControlPanel.clear id (ControlPanel.intervals p).
Proof.
  intros Hrun H. split; [|done].
  apply Inv_run in Hrun.
  destruct (ask_no_status statusText s id w) as (ok & e & ->); [|done].
  destruct H as [H | [H | H]]; [by left | by right; left | right; right].
  by apply (registry_lookup evs w id Hrun).
Qed.

Lemma poll_without_status_keeps_panel_witness :
  let evs := [EvStart (StartRoute.mkRequest admin (Some "full-crawl")) "job-1";
              EvClose "job-1" (Some 0); EvTick 600000; EvCleanup "job-1"] in
  let w := default init (run init evs) in
  let p := ControlPanel.startCrawl "full-crawl" "10:00:00" "10:00:01"
             (Answered true "OK" (Started "job-1" "Started full-crawl operation"))
             ControlPanel.initial in
  ControlPanel.poll "job-1" "10:10:02" (ControlPanel.ask "Not Found" admin "job-1" w) p = p /\
  ControlPanel.isRunning (ControlPanel.status p) = true /\
  ControlPanel.intervals p = ["job-1"].
Proof.
  intros evs w p.
  assert (Hrun : run init evs = Some w) by (vm_compute; reflexivity).
  split; [|split; reflexivity].
  apply (poll_without_status_keeps_panel evs w admin "job-1" "10:10:02" "Not Found" p Hrun).
  right; right; right. reflexivity.
Defined.

(** X3. After the worker has ended, the next poll of its job stops the
    poller and the running state; for exit code 0 the panel shows progress
    100, the completion message and the four zero statistics, for any other
    code progress 0 and "Crawl failed: Process exited with code N". *)
Theorem panel_after_worker_close
  (evs : list Event) (w w' : World) (s : Session) (id : string) (c : option Z)
  (t statusText : string) (p : ControlPanel.Panel) :
  run init evs = Some w ->
  step w (EvClose id c) = Some w' ->
  authorize s = None ->
  id <> "" ->
  let p' := ControlPanel.poll id t (ControlPanel.ask statusText s id w') p in
  ControlPanel.isRunning (ControlPanel.status p') = false /\
  ControlPanel.operation (ControlPanel.status p') = None /\
  ControlPanel.intervals p' = ControlPanel.clear id (ControlPanel.intervals p) /\
  (c = Some 0 ->
     ControlPanel.progress (ControlPanel.status p') = 100 /\
     ControlPanel.message (ControlPanel.status p') = "Crawl completed successfully!" /\
     ControlPanel.stats (ControlPanel.status p') = Some (Stats.mk 0 0 0 0)) /\
  (c <> Some 0 ->
     ControlPanel.progress (ControlPanel.status p') = 0 /\
     ControlPanel.message (ControlPanel.status p')
     = "Crawl failed: Process exited with code " +:+ StartRoute.show_code c /\
     ControlPanel.stats (ControlPanel.status p') = None).
Proof.
  intros Hrun Hstep Hs Hid p'. subst p'.
  rewrite (ask_authorized statusText s id w' Hs Hid).
  apply Inv_run in Hrun as [_ HI].
  simpl in Hstep. destruct (alive id w) eqn:Ha; [|done]. injection Hstep as <-.
  apply alive_spec in Ha. specialize (HI id). unfold job_ok in HI. rewrite Ha in HI.
  destruct HI as (_ & _ & _ & job & Hjob & _).
  cbn [activeCrawls set_worker StartRoute.on_close]. rewrite Hjob, lookup_insert_eq.
  unfold ControlPanel.poll. cbn [data_status data_stats data_error].
  case_bool_decide as Hc; cbn; repeat split; try done.
Qed.

Lemma panel_after_worker_close_witness :
  let evs := [EvStart (StartRoute.mkRequest admin (Some "full-crawl")) "job-1";
              EvStdout "job-1" "Crawling AWS Blogs"] in
  let w := default init (run init evs) in
  let w' := default init (step w (EvClose "job-1" (Some 2))) in
  let p := ControlPanel.startCrawl "full-crawl" "10:00:00" "10:00:01"
             (Answered true "OK" (Started "job-1" "Started full-crawl operation"))
             ControlPanel.initial in
  let p' := ControlPanel.poll "job-1" "10:00:04" (ControlPanel.ask "OK" admin "job-1" w') p in
  ControlPanel.isRunning (ControlPanel.status p') = false /\
  ControlPanel.intervals p' = [] /\
  ControlPanel.message (ControlPanel.status p')
  = "Crawl failed: Process exited with code 2".
Proof.
  intros evs w w' p p'.
  assert (Hrun : run init evs = Some w) by (vm_compute; reflexivity).
  assert (Hstep : step w (EvClose "job-1" (Some 2)) = Some w') by (vm_compute; reflexivity).
  destruct (panel_after_worker_close evs w w' admin "job-1" (Some 2) "10:00:04" "OK" p
              Hrun Hstep eq_refl ltac:(discriminate)) as (H1 & _ & H3 & _ & H5).
  split; [exact H1|]. split; [exact H3|].
  destruct H5 as (_ & Hm & _); [discriminate|]. exact Hm.
Defined.

(** X4. Start button and start route together: for an authenticated admin
    and a recognised operation the panel sets a poller on exactly the id
    under which the route has registered the running job, and shows the
    operation as starting; otherwise the route changes nothing and the
    panel shows "Error: Failed to start crawl: " followed by the reply's
    status text, not running, with no poller set. *)
Theorem start_button_end_to_end
  (s : Session) (op uuid : string) (w : World) (t1 t2 statusText : string)
  (p : ControlPanel.Panel) :
  let out := StartRoute.POST (StartRoute.mkRequest s (Some op)) uuid w in
  let p' := ControlPanel.startCrawl op t1 t2 (fetched statusText out.1) p in
  (authorize s = None /\ op ∈ StartRoute.operations ->
     ControlPanel.intervals p' = ControlPanel.intervals p ++ [uuid] /\
     ControlPanel.status p'
     = ControlPanel.mkStatus true (Some op) 0 ("Starting " +:+ op +:+ "...") None /\
     exists job, activeCrawls out.2 !! uuid = Some job /\
                 status job = running /\ operation job = op) /\
  (authorize s <> None \/ op ∉ StartRoute.operations ->
     out.2 = w /\
     ControlPanel.intervals p' = ControlPanel.intervals p /\
     ControlPanel.status p'
     = ControlPanel.mkStatus false None 0
         ("Error: Failed to start crawl: " +:+ statusText) None).
Proof.
  intros out p'. subst out p'.
  destruct (POST_cases (StartRoute.mkRequest s (Some op)) uuid w)
    as [[Hacc Hw] | (Hacc & op' & [= <-] & Hr & Hw)].
  - split.
    + intros [Hs Hop]. apply array_includes_spec in Hop.
      unfold accepts in Hacc. cbn in Hacc. rewrite Hs in Hacc. cbn in Hop. congruence.
    + intros _. split; [done|].
      assert (Hcode : ok_status (code (StartRoute.POST (StartRoute.mkRequest s (Some op))
                                          uuid w).1) = false).
      { unfold StartRoute.POST. cbn [StartRoute.session StartRoute.body].
        destruct (authorize s) as [r|] eqn:Hs.
        - by destruct (authorize_Some s r Hs) as [-> | ->].
        - unfold accepts in Hacc. cbn [StartRoute.session StartRoute.body] in Hacc.
          rewrite Hs in Hacc. rewrite Hacc, orb_true_r. done. }
      unfold ControlPanel.startCrawl, ControlPanel.started, fetched. rewrite Hcode.
      done.
  - split.
    + intros _. rewrite Hr, Hw.
      unfold ControlPanel.startCrawl, ControlPanel.started, fetched. cbn.
      split; [done|]. split; [done|]. eexists. rewrite lookup_insert_eq. done.
    + intros [Hs | Hop]; exfalso.
      * unfold accepts in Hacc. cbn in Hacc. by destruct (authorize s).
      * apply Hop. apply array_includes_spec.
        unfold accepts in Hacc. cbn [StartRoute.session StartRoute.body] in Hacc.
        by destruct (authorize s).
Qed.

Lemma trim_nonempty (u : string) : trim u <> "" -> u <> "".
Proof. intros H ->. by apply H. Qed.

(** What the custom route does with a request whose fields pass its
    checks. *)
Lemma custom_POST_accepted (URL_ok JSON_ok : string -> bool) (s : Session)
  (ty u : string) (child : list (Z * CustomRoute.ChildEvent)) :
  authorize s = None -> ty ∈ CustomRoute.types -> u <> "" -> URL_ok u = true ->
  exists script args,
    matching_crawler ty u ("python" :: script :: args) /\
    CustomRoute.POST URL_ok JSON_ok (CustomRoute.mkRequest s (Some ty) (Some u)) child
    = let p := CustomRoute.drive JSON_ok child false
                 (CustomRoute.mkPromise "" "" None false false) in
      let result := default (CustomRoute.mkResult false None None)
                            (snd <$> CustomRoute.settled p) in
      CustomRoute.mkOutcome
        (if CustomRoute.success result then
           json (Crawled ("Successfully crawled " +:+ ty)
                         (default DataEmpty (CustomRoute.data result)))
         else
           json_status
             (CrawlFailed (if truthy (CustomRoute.failure result)
                           then default "" (CustomRoute.failure result)
                           else "Crawl failed")) 500)
        [ "python" :: script :: args ]
        (CustomRoute.killed p)
        (fst <$> CustomRoute.settled p).
Proof.
  intros Hs Hin Hu Hurl.
  destruct (crawler_matches ty u Hin) as (script & args & Hc & Hm).
  exists script, args. split; [done|].
  unfold CustomRoute.POST.
  cbn [CustomRoute.session CustomRoute.type CustomRoute.url]. rewrite Hs.
  assert (Ety : truthy (Some ty) = true).
  { apply truthy_Some. exists ty. split; [done|]. intros ->.
    apply array_includes_spec in Hin. discriminate. }
  assert (Eu : truthy (Some u) = true) by (apply truthy_Some; eauto).
  rewrite Ety, Eu. cbn [negb orb from_option id].
  apply array_includes_spec in Hin. rewrite Hin, Hurl. cbn [negb].
  by rewrite Hc.
Qed.

Lemma custom_POST_bad_url (URL_ok JSON_ok : string -> bool) (s : Session)
  (ty u : string) (child : list (Z * CustomRoute.ChildEvent)) :
  authorize s = None -> ty ∈ CustomRoute.types -> u <> "" -> URL_ok u = false ->
  CustomRoute.POST URL_ok JSON_ok (CustomRoute.mkRequest s (Some ty) (Some u)) child
  = CustomRoute.reject (json_status (ErrorBody "Invalid URL format") 400).
Proof.
  intros Hs Hin Hu Hurl. unfold CustomRoute.POST.
  cbn [CustomRoute.session CustomRoute.type CustomRoute.url]. rewrite Hs.
  assert (Ety : truthy (Some ty) = true).
  { apply truthy_Some. exists ty. split; [done|]. intros ->.
    apply array_includes_spec in Hin. discriminate. }
  assert (Eu : truthy (Some u) = true) by (apply truthy_Some; eauto).
  rewrite Ety, Eu. cbn [negb orb from_option id].
  apply array_includes_spec in Hin. by rewrite Hin, Hurl.
Qed.

Lemma cards_types json_title json_videoCount ty f :
  (ty, f) ∈ cards json_title json_videoCount ->
  ty ∈ CustomRoute.types /\
  exists blank fallback describe, f = UrlCrawler.crawl ty blank fallback describe.
Proof.
  unfold cards, CustomRoute.types. intros Hin.
  repeat (apply elem_of_cons in Hin as [[= -> ->] | Hin]);
    [ | | | by apply elem_of_nil in Hin ];
    (split; [set_solver | by do 3 eexists]).
Qed.

(** X5. Each card of the custom URL panel sends nothing for a blank box
    (empty, or white space only, as [trim()] has it: U+00A0 and the other
    Unicode spaces included) and keeps the text; otherwise it sends one request
    with its own type and the text as typed, which for an authenticated
    admin always passes the route's presence and type checks: the only 400
    is "Invalid URL format", shown with the text kept, and any URL the
    parser accepts starts exactly the crawler of that card's type. *)
Theorem url_panel_requests_pass_field_checks
  (URL_ok JSON_ok : string -> bool) (json_title json_videoCount : string -> option string)
  (statusText : string) (s : Session) (child : list (Z * CustomRoute.ChildEvent))
  (ty : string)
  (f : (string -> string -> Fetched) -> UrlCrawler.Slot
       -> UrlCrawler.Slot * list (string * string))
  (slot : UrlCrawler.Slot) :
  (ty, f) ∈ cards json_title json_videoCount ->
  authorize s = None ->
  let u := UrlCrawler.url slot in
  let out := f (UrlCrawler.server URL_ok JSON_ok statusText s child) slot in
  let o := CustomRoute.POST URL_ok JSON_ok (CustomRoute.mkRequest s (Some ty) (Some u)) child in
  (trim u = "" ->
     out.2 = [] /\ UrlCrawler.url out.1 = u /\
     exists m, UrlCrawler.result out.1 = Some (UrlCrawler.mkResult false m None)) /\
  (trim u <> "" ->
     out.2 = [(ty, u)] /\
     (URL_ok u = false ->
        out.1 = UrlCrawler.mkSlot u false
                  (Some (UrlCrawler.mkResult false "Invalid URL format" None))) /\
     (URL_ok u = true ->
        code (CustomRoute.response o) <> 400 /\
        exists argv, CustomRoute.dispatched o = [argv] /\ matching_crawler ty u argv)).
Proof.
  intros Hin Hs u out o. subst u out o.
  destruct (cards_types _ _ _ _ Hin) as (Hty & blank & fallback & describe & ->).
  unfold UrlCrawler.crawl. split.
  - intros ->. cbn. split; [done|]. split; [done|]. by eexists.
  - intros Hne. apply String.eqb_neq in Hne as Hne'. rewrite Hne'.
    apply trim_nonempty in Hne. cbn [fst snd]. split; [done|]. split.
    + intros Hurl. unfold UrlCrawler.server.
      by rewrite (custom_POST_bad_url URL_ok JSON_ok s ty _ child Hs Hty Hne Hurl).
    + intros Hurl.
      destruct (custom_POST_accepted URL_ok JSON_ok s ty _ child Hs Hty Hne Hurl)
        as (script & args & Hm & ->).
      cbn [CustomRoute.response CustomRoute.dispatched]. split.
      * by case_match.
      * by eexists.
Qed.

Lemma url_panel_requests_pass_field_checks_witness :
  let blank := bytes [32; 194; 160; 9]%nat in   (* a space, U+00A0, a tab *)
  let slot := UrlCrawler.mkSlot blank false None in
  let out := UrlCrawler.crawlVideo (fun _ => None)
               (UrlCrawler.server (String.prefix "https://") (fun _ => true) "OK" admin [])
               slot in
  out.2 = [] /\ UrlCrawler.url out.1 = blank.
Proof.
  intros blank slot out.
  destruct (url_panel_requests_pass_field_checks (String.prefix "https://") (fun _ => true)
              (fun _ => None) (fun _ => None) "OK" admin [] "video"
              (UrlCrawler.crawlVideo (fun _ => None)) slot) as [H _].
  - apply elem_of_cons. right. apply elem_of_cons. by left.
  - reflexivity.
  - destruct H as (H1 & H2 & _); [reflexivity|]. by split.
Defined.

(** X6. Panel and route together on a crawler that has not ended at the
    deadline: the card shows the failure "Crawl timeout after 2 minutes",
    stops its spinner and keeps the URL. *)
Theorem url_panel_shows_timeout
  (URL_ok JSON_ok : string -> bool) (json_title json_videoCount : string -> option string)
  (statusText : string) (s : Session) (child : list (Z * CustomRoute.ChildEvent))
  (ty : string)
  (f : (string -> string -> Fetched) -> UrlCrawler.Slot
       -> UrlCrawler.Slot * list (string * string))
  (slot : UrlCrawler.Slot) :
  (ty, f) ∈ cards json_title json_videoCount ->
  authorize s = None ->
  trim (UrlCrawler.url slot) <> "" ->
  URL_ok (UrlCrawler.url slot) = true ->
  unfinished_at_deadline child ->
  (f (UrlCrawler.server URL_ok JSON_ok statusText s child) slot).1
  = UrlCrawler.mkSlot (UrlCrawler.url slot) false
      (Some (UrlCrawler.mkResult false "Crawl timeout after 2 minutes" None)).
Proof.
  intros Hin Hs Hne Hurl Hun.
  destruct (cards_types _ _ _ _ Hin) as (Hty & blank & fallback & describe & ->).
  unfold UrlCrawler.crawl. apply String.eqb_neq in Hne as Hne'. rewrite Hne'.
  apply trim_nonempty in Hne. unfold UrlCrawler.server.
  destruct (custom_POST_accepted URL_ok JSON_ok s ty _ child Hs Hty Hne Hurl)
    as (script & args & _ & ->).
  cbn [CustomRoute.response].
  destruct (drive_timeout JSON_ok child (CustomRoute.mkPromise "" "" None false false))
    as [-> _]; done.
Qed.

Lemma url_panel_shows_timeout_witness :
  (UrlCrawler.crawlBlogPost (fun _ => None)
     (UrlCrawler.server (String.prefix "https://") (fun _ => true) "" admin
        [(1500, CustomRoute.Stdout "fetching"); (130000, CustomRoute.Close None)])
     (UrlCrawler.mkSlot "https://aws.amazon.com/blogs/a" false None)).1
  = UrlCrawler.mkSlot "https://aws.amazon.com/blogs/a" false
      (Some (UrlCrawler.mkResult false "Crawl timeout after 2 minutes" None)).
Proof.
  apply (url_panel_shows_timeout (String.prefix "https://") (fun _ => true)
           (fun _ => None) (fun _ => None) "" admin _ "blog").
  - apply elem_of_cons. by left.
  - reflexivity.
  - discriminate.
  - reflexivity.
  - intros t c Hin.
    apply elem_of_cons in Hin as [Heq | Hin]; [discriminate|].
    apply elem_of_cons in Hin as [Heq | Hin]; [injection Heq as -> _; reflexivity|].
    by apply elem_of_nil in Hin.
Defined.

Lemma authorize_unauthorized (s : Session) :
  authorize s = Some unauthorized <-> authError s = true \/ user s = None.
Proof.
  unfold authorize. destruct (authError s); cbn.
  - split; [by left | done].
  - destruct (user s) as [u|]; cbn.
    + destruct (negb (isAdmin (profile s))); split; try done; by intros [|].
    + split; [by right | done].
Qed.

(** The reply of the listing route: that of the admin check, or the
    database's answer to the one query on [aws_content]. *)
Lemma listing_reply
  (Number : Type) (parseInt parseFloat : string -> Number) (isNaN : Number -> bool)
  (Row : Type) (req : ContentRoute.Request)
  (db : ContentRoute.Query Number -> ContentRoute.Result Row) :
  (ContentRoute.GET Number parseInt parseFloat isNaN Row req db).1
  = match authorize (ContentRoute.session req) with
    | Some r => ContentRoute.Rejected Row r
    | None =>
        match db (ContentRoute.build Number parseInt parseFloat isNaN req) with
        | ContentRoute.DbError _ m => ContentRoute.Failed Row m
        | ContentRoute.DbData _ rows =>
            ContentRoute.Listed Row (default [] rows) (length (default [] rows))
        end
    end.
Proof.
  unfold ContentRoute.GET, authorize.
  destruct (user (ContentRoute.session req)) as [uid|]; cbn.
  - destruct (authError (ContentRoute.session req)); cbn; [done|].
    by destruct (negb (isAdmin (profile (ContentRoute.session req)))).
  - by rewrite orb_true_r.
Qed.

(** X7. The content listing route answers a requester who is not an
    authenticated admin with 401 (not authenticated) or 403 without sending
    the query on [aws_content]: before the 401 nothing is sent to the
    database, before the 403 only the lookup of the requester's own row of
    [user_profiles]. *)
Theorem listing_rejects_before_the_content_query
  (Number : Type) (parseInt parseFloat : string -> Number) (isNaN : Number -> bool)
  (Row : Type) (req : ContentRoute.Request)
  (db : ContentRoute.Query Number -> ContentRoute.Result Row) :
  authorize (ContentRoute.session req) <> None ->
  exists r sent,
    ContentRoute.GET Number parseInt parseFloat isNaN Row req db
    = (ContentRoute.Rejected Row r, sent) /\
    (r = unauthorized \/ r = forbidden) /\
    (r = unauthorized <->
     authError (ContentRoute.session req) = true \/ user (ContentRoute.session req) = None) /\
    (r = unauthorized -> sent = []) /\
    (r = forbidden ->
       exists uid, user (ContentRoute.session req) = Some uid /\
                   sent = [ContentRoute.ProfileOf Number uid]) /\
    (forall q, ContentRoute.Content Number q ∉ sent).
Proof.
  intros Hs. unfold ContentRoute.GET. unfold authorize in Hs.
  destruct (user (ContentRoute.session req)) as [uid|]; cbn in *.
  - destruct (authError (ContentRoute.session req)); cbn in *.
    + exists unauthorized, []. split; [done|]. split; [by left|].
      split; [split; [by left | done]|]. split; [done|]. split; [done|].
      intros q Hq. by apply elem_of_nil in Hq.
    + destruct (negb (isAdmin (profile (ContentRoute.session req)))); [|done].
      exists forbidden, [ContentRoute.ProfileOf Number uid].
      split; [done|]. split; [by right|].
      split; [split; [done | by intros [|]]|]. split; [done|].
      split; [intros _; by exists uid|].
      intros q Hq. apply elem_of_cons in Hq as [Hq | Hq]; [done|].
      by apply elem_of_nil in Hq.
  - exists unauthorized, []. split; [done|]. split; [by left|].
    split; [split; [by right | done]|]. split; [done|]. split; [done|].
    intros q Hq. by apply elem_of_nil in Hq.
Qed.

Lemma listing_rejects_before_the_content_query_witness :
  exists r,
    ContentRoute.GET Z (fun _ => 50) (fun _ => 0) (fun _ => false) string
      (ContentRoute.mkRequest (mkSession false (Some "u-7")
                                 (Some (mkProfile (Some "learner") (Some "ann@example.org"))))
         (Some "video") None None None None)
      (fun _ => ContentRoute.DbData string (Some ["row"]))
    = (ContentRoute.Rejected string r, [ContentRoute.ProfileOf Z "u-7"]) /\ r = forbidden.
Proof.
  destruct (listing_rejects_before_the_content_query Z (fun _ => 50) (fun _ => 0)
              (fun _ => false) string
              (ContentRoute.mkRequest (mkSession false (Some "u-7")
                                 (Some (mkProfile (Some "learner") (Some "ann@example.org"))))
                 (Some "video") None None None None)
              (fun _ => ContentRoute.DbData string (Some ["row"])))
    as (r & sent & Hr & _).
  - discriminate.
  - exists r. injection Hr as <- <-. split; reflexivity.
Defined.

(** X8. Parameters of the content listing that mean the same: [type] and
    [processed] absent, empty or ["all"]; [minQuality] absent, empty or not
    a number; [search] absent or empty; [limit] absent, empty or ["50"].
    The query is always on [aws_content], for all columns, newest first,
    and without parameters it has no filter. *)
Theorem listing_defaults_and_sentinels
  (Number : Type) (parseInt parseFloat : string -> Number) (isNaN : Number -> bool)
  (s : Session) (ty pr mq se li : option string) :
  let build := ContentRoute.build Number parseInt parseFloat isNaN in
  let R := ContentRoute.mkRequest s in
  (forall x, x ∈ [None; Some ""; Some "all"] ->
     build (R x pr mq se li) = build (R None pr mq se li) /\
     build (R ty x mq se li) = build (R ty None mq se li)) /\
  (forall x, x ∈ [None; Some ""] ->
     build (R ty pr x se li) = build (R ty pr None se li) /\
     build (R ty pr mq x li) = build (R ty pr mq None li) /\
     build (R ty pr mq se x) = build (R ty pr mq se (Some "50"))) /\
  (forall q, isNaN (parseFloat q) = true ->
     build (R ty pr (Some q) se li) = build (R ty pr None se li)) /\
  ContentRoute.from Number (build (R ty pr mq se li)) = "aws_content" /\
  ContentRoute.select Number (build (R ty pr mq se li)) = "*" /\
  ContentRoute.order Number (build (R ty pr mq se li)) = ("created_at", false) /\
  ContentRoute.filters Number (build (R None None None None None)) = [].
Proof.
  intros build R. subst build R. unfold ContentRoute.build. cbn.
  split; [|split; [|split; [|done]]].
  - intros x Hx. set_unfold in Hx. by destruct Hx as [-> | [-> | [-> | []]]].
  - intros x Hx. set_unfold in Hx. by destruct Hx as [-> | [-> | []]].
  - intros q Hq. destruct (String.eqb q ""); cbn; [done|]. by rewrite Hq.
Qed.

(** X9. The [processed] parameter of the content listing asks for
    processed rows only when it is exactly ["true"]: every other value
    besides ["all"] and the empty string (["false"], ["TRUE"], ["1"], ...)
    asks for the unprocessed rows. *)
Theorem listing_processed_flag
  (Number : Type) (parseInt parseFloat : string -> Number) (isNaN : Number -> bool)
  (s : Session) (p : string) (mq se li : option string) :
  p <> "" -> p <> "all" ->
  ContentRoute.filters Number
    (ContentRoute.build Number parseInt parseFloat isNaN
       (ContentRoute.mkRequest s None (Some p) None None li))
  = [ContentRoute.Eq_is_processed Number (bool_decide (p = "true"))] /\
  (p <> "true" ->
   ContentRoute.build Number parseInt parseFloat isNaN
     (ContentRoute.mkRequest s None (Some p) mq se li)
   = ContentRoute.build Number parseInt parseFloat isNaN
       (ContentRoute.mkRequest s None (Some "false") mq se li)).
Proof.
  intros H1 H2. unfold ContentRoute.build. cbn.
  apply String.eqb_neq in H1, H2. rewrite H1, H2. cbn.
  split.
  - destruct (String.eqb_spec p "true"); [by rewrite bool_decide_true | by rewrite bool_decide_false].
  - intros H3. apply String.eqb_neq in H3. by rewrite H3.
Qed.

Lemma listing_processed_flag_witness :
  ContentRoute.filters Z
    (ContentRoute.build Z (fun _ => 50) (fun _ => 0) (fun _ => false)
       (ContentRoute.mkRequest admin None (Some "TRUE") None None None))
  = [ContentRoute.Eq_is_processed Z false].
Proof.
  destruct (listing_processed_flag Z (fun _ => 50) (fun _ => 0) (fun _ => false)
              admin "TRUE" None None None) as [H _]; [discriminate | discriminate |].
  exact H.
Defined.

Lemma review_params_get (f : ContentReview.Filters) :
  let ps := ContentReview.params f in
  ContentReview.get "type" ps
  = (if String.eqb (ContentReview.contentType f) "all" then None
     else Some (ContentReview.contentType f)) /\
  ContentReview.get "processed" ps
  = (if String.eqb (ContentReview.processedStatus f) "all" then None
     else Some (ContentReview.processedStatus f)) /\
  ContentReview.get "minQuality" ps
  = (if String.eqb (ContentReview.minQuality f) "" then None
     else Some (ContentReview.minQuality f)) /\
  ContentReview.get "search" ps
  = (if String.eqb (ContentReview.search f) "" then None
     else Some (ContentReview.search f)) /\
  ContentReview.get "limit" ps = None.
Proof.
  destruct f as [ct ps mq se]. unfold ContentReview.params, truthy.
  cbn [ContentReview.contentType ContentReview.processedStatus
       ContentReview.minQuality ContentReview.search].
  destruct (String.eqb ct "all"), (String.eqb ps "all"), (String.eqb mq ""),
    (String.eqb se ""); repeat split; reflexivity.
Qed.

(** X10. Review panel and listing route together: the query always has
    the default limit of 50 (the panel sends none), it has one filter for
    each box and choice that is set (a type and a status other than "all",
    a numeric minimum quality, a non-empty search text) and no other, and
    after Reset it has no filter. *)
Theorem review_panel_query
  (Number : Type) (parseInt parseFloat : string -> Number) (isNaN : Number -> bool)
  (s : Session) (f : ContentReview.Filters) :
  let q := ContentRoute.build Number parseInt parseFloat isNaN (ContentReview.request s f) in
  ContentRoute.limit_to Number q = parseInt "50" /\
  ContentRoute.filters Number q
  = (if bool_decide (ContentReview.contentType f = "all" \/ ContentReview.contentType f = "")
     then [] else [ContentRoute.Eq_content_type Number (ContentReview.contentType f)])
    ++ (if bool_decide (ContentReview.processedStatus f = "all"
                        \/ ContentReview.processedStatus f = "")
        then []
        else [ContentRoute.Eq_is_processed Number
                (bool_decide (ContentReview.processedStatus f = "true"))])
    ++ (if bool_decide (ContentReview.minQuality f = ""
                        \/ isNaN (parseFloat (ContentReview.minQuality f)) = true)
        then []
        else [ContentRoute.Gte_overall_quality_score Number
                (parseFloat (ContentReview.minQuality f))])
    ++ (if bool_decide (ContentReview.search f = "") then []
        else [ContentRoute.Ilike_title Number ("%" +:+ ContentReview.search f +:+ "%")]) /\
  ContentRoute.filters Number
    (ContentRoute.build Number parseInt parseFloat isNaN
       (ContentReview.request s ContentReview.reset)) = [].
Proof.
  intros q. subst q.
  destruct (review_params_get f) as (Hty & Hpr & Hmq & Hse & Hli).
  unfold ContentReview.request, ContentRoute.build.
  cbn [ContentRoute.limit ContentRoute.limit_to ContentRoute.filters ContentRoute.type
       ContentRoute.processed ContentRoute.minQuality ContentRoute.search].
  rewrite Hty, Hpr, Hmq, Hse, Hli. clear Hty Hpr Hmq Hse Hli.
  destruct f as [ct ps mq se].
  cbn [ContentReview.contentType ContentReview.processedStatus
       ContentReview.minQuality ContentReview.search].
  split; [reflexivity|]. split; [|reflexivity].
  f_equal; [|f_equal; [|f_equal]].
  - destruct (String.eqb_spec ct "all") as [->|H1];
      [rewrite bool_decide_true by (by left); reflexivity|].
    apply String.eqb_neq in H1 as E1.
    destruct (String.eqb_spec ct "") as [->|H2].
    + rewrite bool_decide_true by (by right). reflexivity.
    + apply String.eqb_neq in H2 as E2. cbn. rewrite ?E1, ?E2. cbn.
      rewrite bool_decide_false by (by intros [|]). reflexivity.
  - destruct (String.eqb_spec ps "all") as [->|H1];
      [rewrite bool_decide_true by (by left); reflexivity|].
    apply String.eqb_neq in H1 as E1.
    destruct (String.eqb_spec ps "") as [->|H2].
    + rewrite bool_decide_true by (by right). reflexivity.
    + apply String.eqb_neq in H2 as E2. cbn. rewrite ?E1, ?E2. cbn.
      rewrite bool_decide_false by (by intros [|]).
      by destruct (String.eqb_spec ps "true");
        [rewrite bool_decide_true | rewrite bool_decide_false].
  - destruct (String.eqb_spec mq "") as [->|H1];
      [rewrite bool_decide_true by (by left); reflexivity|].
    apply String.eqb_neq in H1 as E1. cbn. rewrite ?E1. cbn.
    destruct (isNaN (parseFloat mq)) eqn:E; cbn.
    + rewrite bool_decide_true by (by right). reflexivity.
    + rewrite bool_decide_false; [reflexivity|]. intros [|]; congruence.
  - destruct (String.eqb_spec se "") as [->|H1];
      [rewrite bool_decide_true by done; reflexivity|].
    apply String.eqb_neq in H1 as E1. cbn. rewrite ?E1. cbn.
    by rewrite bool_decide_false.
Qed.

(** X11. Review panel and listing route together: the spinner stops and the
    filters stay whatever the reply; the table is replaced only by a 200
    reply, with the rows the database gave to an authenticated admin
    ([null] as none); after a 401, 403 or 500 reply, or a thrown fetch, the
    rows shown before stay. *)
Theorem review_panel_after_fetch
  (Number : Type) (parseInt parseFloat : string -> Number) (isNaN : Number -> bool)
  (Row : Type) (s : Session) (st : ContentReview.State Row)
  (db : ContentRoute.Query Number -> ContentRoute.Result Row) :
  let req := ContentReview.request s (ContentReview.filters Row st) in
  let reply := (ContentRoute.GET Number parseInt parseFloat isNaN Row req db).1 in
  let st' := ContentReview.fetchContent Row (Some reply) st in
  ContentReview.loading Row st' = false /\
  ContentReview.filters Row st' = ContentReview.filters Row st /\
  (ContentRoute.status_of Row reply <> 200 ->
     ContentReview.content Row st' = ContentReview.content Row st) /\
  (ContentRoute.status_of Row reply = 200 ->
     authorize s = None /\
     exists rows,
       db (ContentRoute.build Number parseInt parseFloat isNaN req)
       = ContentRoute.DbData Row rows /\
       ContentReview.content Row st' = default [] rows) /\
  ContentReview.fetchContent Row None st
  = ContentReview.mkState Row (ContentReview.content Row st) false
      (ContentReview.filters Row st).
Proof.
  intros req reply st'. subst req reply st'. rewrite listing_reply.
  cbn [ContentRoute.session ContentReview.request].
  destruct (authorize s) as [r|] eqn:Hs; cbn [fst].
  - cbn. split; [done|]. split; [done|]. split; [done|]. split; [|done].
    intros Hc. by destruct (authorize_Some s r Hs) as [-> | ->].
  - destruct (db _) as [m | rows] eqn:Hdb; cbn;
      (split; [done|]); (split; [done|]); (split; [done|]); (split; [|done]).
    + done.
    + intros _. split; [done|]. by exists rows.
Qed.

(** X12. The admin page and the admin routes apply the same rule: the page
    shows the dashboard exactly to the sessions the routes serve, sends to
    the sign-in page exactly those the routes answer 401, and to
    [/dashboard] exactly those they answer 403. *)
Theorem admin_page_and_routes_agree (s : Session) :
  (AdminPage.AdminCrawlingPage s = AdminPage.Dashboard <-> authorize s = None) /\
  (AdminPage.AdminCrawlingPage s = AdminPage.Redirect "/signin?redirectTo=/admin/crawling"
   <-> authorize s = Some unauthorized) /\
  (AdminPage.AdminCrawlingPage s = AdminPage.Redirect "/dashboard"
   <-> authorize s = Some forbidden).
Proof.
  unfold AdminPage.AdminCrawlingPage, authorize.
  destruct (authError s || negb (bool_decide (is_Some (user s)))).
  - repeat split; done.
  - destruct (negb (isAdmin (profile s))); repeat split; done.
Qed.

(** ** The progress functions of the schema *)

Section Counting.

Variable g : Sql.topics.row -> list Sql.modules.row.
Variable u : string.

Lemma joined_cons t0 T UP :
  length (flat_map (Sql.joined g u (t0 :: T)) UP)
  = (length (flat_map (Sql.joined g u [t0]) UP) + length (flat_map (Sql.joined g u T) UP))%nat.
Proof.
  induction UP as [|up UP IH]; [done|].
  cbn [flat_map]. rewrite !length_app, IH.
  assert (length (Sql.joined g u (t0 :: T) up)
          = (length (Sql.joined g u [t0] up) + length (Sql.joined g u T up))%nat); [|lia].
  unfold Sql.joined. case_bool_decide; [|done].
  rewrite !filter_cons, filter_nil.
  case_decide; cbn [flat_map]; rewrite ?length_app; cbn; lia.
Qed.

Lemma joined_absent t0 UP :
  (u, Sql.topics.id t0)
    ∉ map (fun up => (Sql.user_progress.user_id up, Sql.user_progress.topic_id up)) UP ->
  flat_map (Sql.joined g u [t0]) UP = [].
Proof.
  induction UP as [|up UP IH]; [done|]. cbn [map flat_map]. intros Hn.
  apply not_elem_of_cons in Hn as [Hne Hn]. rewrite (IH Hn), app_nil_r.
  unfold Sql.joined. case_bool_decide as Hc; [|done].
  rewrite filter_cons, filter_nil. case_decide as Ht; [|done].
  exfalso. apply Hne. destruct Hc as [<- _]. by rewrite Ht.
Qed.

Lemma joined_one t0 UP :
  NoDup (map (fun up => (Sql.user_progress.user_id up, Sql.user_progress.topic_id up)) UP) ->
  (length (flat_map (Sql.joined g u [t0]) UP) <= length (g t0))%nat.
Proof.
  induction UP as [|up UP IH]; [cbn; lia|]. cbn [map flat_map]. intros Hnd.
  apply NoDup_cons in Hnd as [Hnot Hnd]. rewrite length_app.
  unfold Sql.joined at 1. case_bool_decide as Hc; [|by apply IH].
  rewrite filter_cons, filter_nil. case_decide as Ht; [|by apply IH].
  rewrite joined_absent.
  - cbn. rewrite app_nil_r, length_map. lia.
  - destruct Hc as [<- _]. by rewrite Ht.
Qed.

Lemma joined_le_total T UP :
  NoDup (map (fun up => (Sql.user_progress.user_id up, Sql.user_progress.topic_id up)) UP) ->
  (length (flat_map (Sql.joined g u T) UP)
   <= length (flat_map (fun t => map (fun _ => Sql.topics.id t) (g t)) T))%nat.
Proof.
  intros Hnd. induction T as [|t0 T IH].
  - assert (flat_map (Sql.joined g u []) UP = []) as ->; [|done].
    clear Hnd. induction UP as [|up UP IHU]; [done|].
    cbn [flat_map]. rewrite IHU, app_nil_r. unfold Sql.joined. by case_bool_decide.
  - rewrite joined_cons. cbn [flat_map]. rewrite length_app, length_map.
    pose proof (joined_one t0 UP Hnd). lia.
Qed.

End Counting.

Lemma completed_le_total (db : Sql.Db) (u r : string) :
  Sql.unique_progress db ->
  (length (Sql.completed_rows db u r) <= length (Sql.total_rows db r))%nat.
Proof.
  intros Hnd. unfold Sql.completed_rows, Sql.total_rows.
  apply (joined_le_total (Sql.modules_of db r) u (Sql.t_topics db)
           (Sql.t_user_progress db) Hnd).
Qed.

Lemma int4_Some (z : Z) :
  -2147483648 <= z <= 2147483647 -> Sql.int4 z = Some z.
Proof.
  intros H. unfold Sql.int4.
  destruct (Z.leb_spec (-2147483648) z), (Z.leb_spec z 2147483647); cbn; [done|lia..].
Qed.

(** What the function computes when no INTEGER overflows. *)
Lemma update_roadmap_progress_value (db : Sql.Db) (u r : string) (now : Z) :
  let total := Z.of_nat (length (Sql.total_rows db r)) in
  let completed := Z.of_nat (length (Sql.completed_rows db u r)) in
  Sql.unique_progress db ->
  total * 100 <= 2147483647 ->
  completed <= total /\
  Sql.update_roadmap_progress u r now db
  = Some (Sql.mkDb (Sql.t_modules db) (Sql.t_topics db) (Sql.t_user_progress db)
            (map (fun e =>
                    if bool_decide (Sql.user_roadmaps.user_id e = u /\
                                    Sql.user_roadmaps.roadmap_id e = r)
                    then Sql.set_progress total completed
                           (if 0 <? total then completed * 100 / total else 0) now e
                    else e)
                 (Sql.t_user_roadmaps db))
            (Sql.t_user_profiles db)).
Proof.
  intros total completed Hnd Hbound.
  assert (Hle : completed <= total)
    by (subst total completed; pose proof (completed_le_total db u r Hnd); lia).
  split; [done|].
  unfold Sql.update_roadmap_progress. fold total completed.
  rewrite (int4_Some total) by lia. cbn [mbind option_bind].
  rewrite (int4_Some completed) by lia. cbn [mbind option_bind].
  unfold Sql.percentage. destruct (Z.ltb_spec 0 total) as [Hpos|Hz].
  - rewrite (int4_Some (completed * 100)) by lia. cbn [mbind option_bind].
    rewrite Z.quot_div_nonneg by lia. done.
  - done.
Qed.


(** X14. [update_roadmap_progress] rounds the percentage down: while fewer
    than one in a hundred topics are completed the percentage written is 0
    and neither the status nor [completed_at] of any enrollment changes,
    although the number of completed topics is recorded. *)
Theorem roadmap_status_needs_one_percent
  (db : Sql.Db) (u r : string) (now : Z) :
  Sql.unique_progress db ->
  Z.of_nat (length (Sql.total_rows db r)) * 100 <= 2147483647 ->
  Z.of_nat (length (Sql.completed_rows db u r)) * 100
    < Z.of_nat (length (Sql.total_rows db r)) ->
  exists db',
    Sql.update_roadmap_progress u r now db = Some db' /\
    forall i e e',
      Sql.t_user_roadmaps db !! i = Some e ->
      Sql.t_user_roadmaps db' !! i = Some e' ->
      Sql.user_roadmaps.status e' = Sql.user_roadmaps.status e /\
      Sql.user_roadmaps.completed_at e' = Sql.user_roadmaps.completed_at e /\
      (Sql.user_roadmaps.user_id e = u /\ Sql.user_roadmaps.roadmap_id e = r ->
       Sql.user_roadmaps.progress_percentage e' = Some 0 /\
       Sql.user_roadmaps.completed_topics e'
       = Some (Z.of_nat (length (Sql.completed_rows db u r)))).
Proof.
  intros Hnd Hbound Hfew.
  destruct (update_roadmap_progress_value db u r now Hnd Hbound) as [Hle ->].
  set (total := Z.of_nat (length (Sql.total_rows db r))) in *.
  set (completed := Z.of_nat (length (Sql.completed_rows db u r))) in *.
  assert (Hc0 : 0 <= completed) by (subst completed; lia).
  assert (Hpct : (if 0 <? total then completed * 100 / total else 0) = 0).
  { destruct (Z.ltb_spec 0 total); [|done]. apply Z.div_small. lia. }
  rewrite Hpct. eexists. split; [done|]. cbn [Sql.t_user_roadmaps].
  intros i e e' He He'. rewrite list_lookup_fmap, He in He'. cbn in He'.
  injection He' as <-. case_bool_decide as Hm; cbn; [|split; [done|]; split; [done|]; done].
  done.
Qed.

Lemma roadmap_status_needs_one_percent_witness :
  let db := Sql.mkDb
              [Sql.modules.mk "m1" "r1"]
              (map (fun n => Sql.topics.mk (pretty n) "m1") (seq 0 101))
              [Sql.user_progress.mk "p1" "u1" "0" (Some "completed") (Some 1700000000)]
              [Sql.user_roadmaps.mk "e1" "u1" "r1" (Some "enrolled") None
                 (Some 0) (Some 0) (Some 0)]
              [] in
  Sql.t_user_roadmaps <$> Sql.update_roadmap_progress "u1" "r1" 1700000100 db
  = Some [Sql.user_roadmaps.mk "e1" "u1" "r1" (Some "enrolled") None
            (Some 0) (Some 101) (Some 1)].
Proof.
  intros db.
  assert (Hnd : Sql.unique_progress db) by (apply NoDup_singleton).
  assert (Hb : Z.of_nat (length (Sql.total_rows db "r1")) * 100 <= 2147483647)
    by (vm_compute; discriminate).
  assert (Hf : Z.of_nat (length (Sql.completed_rows db "u1" "r1")) * 100
               < Z.of_nat (length (Sql.total_rows db "r1")))
    by (vm_compute; reflexivity).
  destruct (roadmap_status_needs_one_percent db "u1" "r1" 1700000100 Hnd Hb Hf)
    as (db' & Hup & _).
  rewrite Hup. vm_compute in Hup. injection Hup as <-. reflexivity.
Defined.




Lemma stored_streak_after (DATE : Z -> Z) (u : string) (today now : Z)
  (db db' : Sql.Db) (v : option Z) :
  Sql.update_user_streak DATE u today now db = Some (db', v) ->
  (exists p, p ∈ Sql.t_user_profiles db /\ Sql.user_profiles.id p = u) ->
  Sql.stored_streak db' u = v.
Proof.
  unfold Sql.update_user_streak. intros H.
  destruct (Sql.streak DATE today db u) as [cur|]; [|done]. cbn in H.
  injection H as <- <-. unfold Sql.stored_streak. cbn [Sql.t_user_profiles].
  intros (p & Hin & Hid).
  induction (Sql.t_user_profiles db) as [|q l IH]; [by apply elem_of_nil in Hin|].
  cbn [map]. rewrite filter_cons. case_bool_decide as Hq.
  - cbn. rewrite decide_True by done. done.
  - rewrite decide_False by done. apply IH.
    apply elem_of_cons in Hin as [-> | Hin]; [done | done].
Qed.

Lemma stored_streak_row (db : Sql.Db) (u : string) (n : Z) :
  Sql.stored_streak db u = Some n ->
  exists p, p ∈ Sql.t_user_profiles db /\ Sql.user_profiles.id p = u.
Proof.
  unfold Sql.stored_streak. intros Hst.
  destruct (filter _ (Sql.t_user_profiles db)) as [|p l] eqn:E; [done|].
  assert (Hin : p ∈ filter (fun p => Sql.user_profiles.id p = u) (Sql.t_user_profiles db))
    by (rewrite E; apply elem_of_cons; by left).
  apply list_elem_of_filter in Hin as [? ?]. by exists p.
Qed.

(** X16. [update_user_streak] is not idempotent: for a user whose last
    completion is today and who also completed something yesterday, every
    call adds one to the stored streak, so two calls on the same day and
    the same progress rows give the previous streak plus two. *)
Theorem streak_grows_with_every_call
  (DATE : Z -> Z) (u : string) (today now now' : Z) (db : Sql.Db) (n : Z) :
  Sql.last_activity_date DATE db u = Some today ->
  Sql.active_on DATE db u (today - 1) = true ->
  Sql.stored_streak db u = Some n ->
  -2147483648 <= n + 1 -> n + 2 <= 2147483647 ->
  exists db1 db2,
    Sql.update_user_streak DATE u today now db = Some (db1, Some (n + 1)) /\
    Sql.update_user_streak DATE u today now' db1 = Some (db2, Some (n + 2)) /\
    Sql.stored_streak db2 u = Some (n + 2).
Proof.
  intros Hlast Hact Hst Hlo Hhi.
  pose proof (stored_streak_row db u n Hst) as Hp.
  assert (H1 : Sql.streak DATE today db u = Some (Some (n + 1))).
  { unfold Sql.streak. rewrite Hlast, Z.eqb_refl, Hact, Hst.
    rewrite int4_Some by lia. done. }
  destruct (Sql.update_user_streak DATE u today now db) as [[db1 v1]|] eqn:E1;
    [|unfold Sql.update_user_streak in E1; by rewrite H1 in E1].
  assert (v1 = Some (n + 1)) as ->.
  { unfold Sql.update_user_streak in E1. rewrite H1 in E1. cbn in E1. congruence. }
  pose proof (stored_streak_after DATE u today now db db1 _ E1 Hp) as Hst1.
  assert (Hprog : Sql.t_user_progress db1 = Sql.t_user_progress db).
  { unfold Sql.update_user_streak in E1. rewrite H1 in E1. cbn in E1.
    by injection E1 as <-. }
  pose proof (stored_streak_row db1 u _ Hst1) as Hp1.
  assert (H2 : Sql.streak DATE today db1 u = Some (Some (n + 2))).
  { unfold Sql.streak, Sql.last_activity_date, Sql.active_on, Sql.completed_by in *.
    rewrite Hprog, Hlast, Z.eqb_refl, Hact, Hst1.
    rewrite int4_Some by lia. cbn. do 2 f_equal. lia. }
  destruct (Sql.update_user_streak DATE u today now' db1) as [[db2 v2]|] eqn:E2;
    [|unfold Sql.update_user_streak in E2; by rewrite H2 in E2].
  assert (v2 = Some (n + 2)) as ->.
  { unfold Sql.update_user_streak in E2. rewrite H2 in E2. cbn in E2. congruence. }
  exists db1, db2. split; [done|]. split; [done|].
  by apply (stored_streak_after DATE u today now' db1 db2 _ E2 Hp1).
Qed.

Lemma streak_grows_with_every_call_witness :
  let DATE := fun ts => ts / 86400 in
  let db := Sql.mkDb [] []
              [Sql.user_progress.mk "p1" "u1" "t1" (Some "completed") (Some (86400 * 100 + 60));
               Sql.user_progress.mk "p2" "u1" "t2" (Some "completed") (Some (86400 * 99 + 60))]
              []
              [Sql.user_profiles.mk "u1" (Some 4) (Some 9) None] in
  exists db1 db2,
    Sql.update_user_streak DATE "u1" 100 8640100 db = Some (db1, Some 5) /\
    Sql.update_user_streak DATE "u1" 100 8640200 db1 = Some (db2, Some 6).
Proof.
  intros DATE db.
  destruct (streak_grows_with_every_call DATE "u1" 100 8640100 8640200 db 4)
    as (db1 & db2 & H1 & H2 & _); try reflexivity; try lia.
  by exists db1, db2.
Defined.


(** ** The public search *)

Lemma ceil_div_bounds (c l : Z) :
  0 < l -> (- ((- c) / l) - 1) * l < c <= - ((- c) / l) * l.
Proof.
  intros Hl. pose proof (Z.div_mod (- c) l ltac:(lia)) as Hdm.
  pose proof (Z.mod_pos_bound (- c) l Hl). nia.
Qed.

(** Integers up to 2^53 in magnitude are doubles. *)
Lemma fl_exact (z : Z) : Z.abs z <= 2 ^ 53 -> SearchRoute.fl z = z.
Proof.
  change (2 ^ 53) with 9007199254740992. intros Hz. unfold SearchRoute.fl.
  change (2 ^ 53) with 9007199254740992.
  destruct (Z.ltb_spec (Z.abs z) 9007199254740992) as [_ | Hge]; [done|].
  assert (Hcases : z = 9007199254740992 \/ z = - 9007199254740992) by lia.
  by destruct Hcases as [-> | ->].
Qed.

(** Beyond 2^53 the arithmetic of the handler rounds: for page 3000000000
    and limit 3000000001 the offset (page-1)*limit is 9000000000000000000,
    one more than the product, and the last row offset+limit-1 is
    9000000003000000512. *)
Lemma search_range_rounds :
  let parseInt := fun s : string =>
    if String.eqb s "3000000000" then Some 3000000000
    else if String.eqb s "3000000001" then Some 3000000001 else None in
  SearchRoute.range Z
    (SearchRoute.build parseInt Z (fun _ => 0) (fun _ => false)
       (SearchRoute.mkRequest None None None None None
          (Some "3000000000") (Some "3000000001")))
  = (Some 9000000000000000000, Some 9000000003000000512).
Proof. vm_compute. reflexivity. Qed.

(** X17. Pagination of the search for integers page >= 1 and limit >= 1
    with page*limit at most 2^53, and a count c with 0 <= c <= 2^53: the
    rows requested are (page-1)*limit to page*limit-1, [totalPages] is the
    least n with n*limit >= c, and [hasMore] holds exactly when
    page*limit < c, that is when a row lies beyond the page. *)
Theorem search_has_more_iff_rows_beyond
  (parseInt : string -> option Z) (Number : Type) (parseFloat : string -> Number)
  (isNaN : Number -> bool) (Row : Type) (req : SearchRoute.Request)
  (db : SearchRoute.Query Number -> SearchRoute.Result Row)
  (p l c : Z) (rows : option (list Row)) :
  SearchRoute.page_of parseInt req = Some p ->
  SearchRoute.limit_of parseInt req = Some l ->
  1 <= p -> 1 <= l -> p * l <= 2 ^ 53 -> 0 <= c <= 2 ^ 53 ->
  db (SearchRoute.build parseInt Number parseFloat isNaN req)
  = SearchRoute.DbData Row rows (Some c) ->
  SearchRoute.range Number (SearchRoute.build parseInt Number parseFloat isNaN req)
  = (Some ((p - 1) * l), Some (p * l - 1)) /\
  exists n pag echo,
    SearchRoute.GET parseInt Number parseFloat isNaN Row req db
    = SearchRoute.Found Row (default [] rows) pag echo /\
    SearchRoute.total pag = c /\
    SearchRoute.p_totalPages pag = SearchRoute.Finite n /\
    0 <= n /\ (n - 1) * l < c <= n * l /\
    (SearchRoute.p_hasMore pag = true <-> p * l < c).
Proof.
  intros Hp Hl Hp1 Hl1 Hpl Hc Hdb. split.
  - unfold SearchRoute.build, SearchRoute.offset. cbn [SearchRoute.range].
    rewrite Hp, Hl. cbn [SearchRoute.sub SearchRoute.add SearchRoute.mul mbind
                         option_bind].
    rewrite (fl_exact (p - 1)) by nia.
    rewrite (fl_exact ((p - 1) * l)) by nia.
    rewrite (fl_exact ((p - 1) * l + l)) by nia.
    rewrite (fl_exact ((p - 1) * l + l - 1)) by nia.
    do 2 f_equal. lia.
  - unfold SearchRoute.GET. rewrite Hdb, Hp, Hl.
    pose proof (ceil_div_bounds c l ltac:(lia)) as Hb.
    unfold SearchRoute.totalPages, SearchRoute.hasMore.
    destruct (Z.eqb_spec c 0) as [-> | Hc0].
    + exists 0. do 2 eexists. split; [done|]. cbn.
      split; [done|]. split; [done|]. split; [done|]. split; [lia|].
      rewrite Z.ltb_lt. lia.
    + destruct (Z.eqb_spec l 0) as [-> | _]; [lia|].
      exists (- (- c / l)). do 2 eexists. split; [done|]. cbn.
      split; [done|]. split; [done|]. split; [nia|]. split; [lia|].
      rewrite Z.ltb_lt. nia.
Qed.

Lemma search_has_more_iff_rows_beyond_witness :
  let parseInt := fun s : string =>
    if String.eqb s "3" then Some 3 else if String.eqb s "20" then Some 20 else None in
  let req := SearchRoute.mkRequest (Some "lambda") None None None None (Some "3") None in
  let db := fun _ : SearchRoute.Query Z =>
    SearchRoute.DbData string (Some ["row-41"; "row-42"]) (Some 42) in
  exists pag echo,
    SearchRoute.GET parseInt Z (fun _ => 0) (fun _ => false) string req db
    = SearchRoute.Found string ["row-41"; "row-42"] pag echo /\
    SearchRoute.p_totalPages pag = SearchRoute.Finite 3 /\
    SearchRoute.p_hasMore pag = false.
Proof.
  intros parseInt req db.
  destruct (search_has_more_iff_rows_beyond parseInt Z (fun _ => 0) (fun _ => false)
              string req db 3 20 42 (Some ["row-41"; "row-42"]))
    as (_ & n & pag & echo & Hget & _); try reflexivity; try lia.
  exists pag, echo. split; [exact Hget|].
  vm_compute in Hget. injection Hget as <- _. split; reflexivity.
Defined.

(** X18. With [limit=0] the search requests the rows 0 to -1 whatever the
    page, and when the database answers with a positive count the handler
    computes an infinite [totalPages] (which JSON sends as [null]) and
    [hasMore] true on every page. *)
Theorem search_limit_zero
  (parseInt : string -> option Z) (Number : Type) (parseFloat : string -> Number)
  (isNaN : Number -> bool) (Row : Type) (req : SearchRoute.Request)
  (db : SearchRoute.Query Number -> SearchRoute.Result Row)
  (p c : Z) (rows : option (list Row)) :
  SearchRoute.page_of parseInt req = Some p ->
  SearchRoute.limit_of parseInt req = Some 0 ->
  0 < c ->
  db (SearchRoute.build parseInt Number parseFloat isNaN req)
  = SearchRoute.DbData Row rows (Some c) ->
  SearchRoute.range Number (SearchRoute.build parseInt Number parseFloat isNaN req)
  = (Some 0, Some (-1)) /\
  exists pag echo,
    SearchRoute.GET parseInt Number parseFloat isNaN Row req db
    = SearchRoute.Found Row (default [] rows) pag echo /\
    SearchRoute.p_totalPages pag = SearchRoute.Infinity /\
    SearchRoute.p_hasMore pag = true.
Proof.
  intros Hp Hl Hc Hdb. split.
  - unfold SearchRoute.build, SearchRoute.offset. cbn [SearchRoute.range].
    rewrite Hp, Hl. cbn [SearchRoute.sub SearchRoute.add SearchRoute.mul mbind
                         option_bind].
    rewrite Z.mul_0_r. reflexivity.
  - unfold SearchRoute.GET. rewrite Hdb, Hp, Hl. do 2 eexists. split; [done|].
    cbn. assert ((c =? 0) = false) as Hc0 by lia. by rewrite Hc0.
Qed.

Lemma search_limit_zero_witness :
  let parseInt := fun s : string =>
    if String.eqb s "7" then Some 7 else if String.eqb s "0" then Some 0 else None in
  let req := SearchRoute.mkRequest None None None None None (Some "7") (Some "0") in
  let db := fun _ : SearchRoute.Query Z => SearchRoute.DbData string None (Some 42) in
  exists pag echo,
    SearchRoute.GET parseInt Z (fun _ => 0) (fun _ => false) string req db
    = SearchRoute.Found string [] pag echo /\
    SearchRoute.p_hasMore pag = true.
Proof.
  intros parseInt req db.
  destruct (search_limit_zero parseInt Z (fun _ => 0) (fun _ => false) string req db
              7 42 None) as (_ & pag & echo & Hget & _ & Hmore);
    try reflexivity; try lia.
  by exists pag, echo.
Defined.

Lemma split_comma_not_nil (s : string) : SearchRoute.split_comma s <> [].
Proof.
  induction s as [|c s IH]; [done|]. cbn.
  destruct (Ascii.eqb c ","); [done|]. by destruct (SearchRoute.split_comma s).
Qed.

Lemma includes_cons_false (c : ascii) (x : string) :
  Ascii.eqb c "," = false -> includes x "," = false -> includes (String c x) "," = false.
Proof.
  intros Hc Hx.
  change (includes (String c x) ",")
    with (String.prefix "," (String c x) || includes x ",").
  rewrite Hx, orb_false_r.
  destruct (String.prefix "," (String c x)) eqn:E; [|done].
  apply prefix_spec in E as [b Hb]. rewrite append_cons in Hb. injection Hb as -> _.
  by rewrite Ascii.eqb_refl in Hc.
Qed.

Lemma split_comma_free (s x : string) :
  x ∈ SearchRoute.split_comma s -> includes x "," = false.
Proof.
  revert x. induction s as [|c s IH]; intros x; cbn.
  - intros Hin. apply list_elem_of_singleton in Hin. by subst.
  - destruct (Ascii.eqb c ",") eqn:Hc.
    + intros Hin. apply elem_of_cons in Hin as [-> | Hin]; [done | by apply IH].
    + destruct (SearchRoute.split_comma s) as [|y l] eqn:E.
      * by destruct (split_comma_not_nil s).
      * intros Hin. apply elem_of_cons in Hin as [-> | Hin].
        -- apply includes_cons_false; [done|]. apply IH. by left.
        -- apply IH. by right.
Qed.

(** X19. The [services] parameter of the search is split at commas and the
    empty pieces are dropped: the filter on [aws_services], when the query
    has one, lists exactly the non-empty pieces in order, none of them
    empty or holding a comma, and it is left out when there is no such
    piece. *)
Theorem search_services_filter
  (parseInt : string -> option Z) (Number : Type) (parseFloat : string -> Number)
  (isNaN : Number -> bool) (req : SearchRoute.Request) (names : list string) :
  SearchRoute.Contains_aws_services Number names
    ∈ SearchRoute.filters Number (SearchRoute.build parseInt Number parseFloat isNaN req) ->
  names <> [] /\
  (exists s, SearchRoute.services req = Some s /\
             names = SearchRoute.nonempty (SearchRoute.split_comma s)) /\
  forall x, x ∈ names -> x <> "" /\ includes x "," = false.
Proof.
  unfold SearchRoute.build. cbn [SearchRoute.filters]. intros Hin.
  assert (Hsv : SearchRoute.services_of req = Some names /\ names <> []).
  { repeat (apply elem_of_app in Hin as [Hin | Hin]).
    - apply list_elem_of_singleton in Hin. discriminate.
    - case_match; [apply list_elem_of_singleton in Hin; discriminate
                  | by apply elem_of_nil in Hin].
    - case_match; [apply list_elem_of_singleton in Hin; discriminate
                  | by apply elem_of_nil in Hin].
    - case_match; [apply list_elem_of_singleton in Hin; discriminate
                  | by apply elem_of_nil in Hin].
    - destruct (SearchRoute.services_of req) as [[|x l]|];
        [by apply elem_of_nil in Hin | | by apply elem_of_nil in Hin].
      apply list_elem_of_singleton in Hin. injection Hin as ->. done.
    - case_match; [apply list_elem_of_singleton in Hin; discriminate
                  | by apply elem_of_nil in Hin]. }
  destruct Hsv as [Hsv Hne]. split; [done|].
  unfold SearchRoute.services_of in Hsv.
  destruct (SearchRoute.services req) as [s|]; [|done]. cbn in Hsv.
  injection Hsv as <-. split; [by exists s|].
  intros x Hx. unfold SearchRoute.nonempty in Hx.
  apply list_elem_of_filter in Hx as [Hx1 Hx2]. split; [done|].
  by apply (split_comma_free s).
Qed.

Lemma search_services_filter_witness :
  let req := SearchRoute.mkRequest None None None (Some ",lambda,,s3,") None None None in
  SearchRoute.filters Z
    (SearchRoute.build (fun _ => Some 1) Z (fun _ => 0) (fun _ => false) req)
  = [SearchRoute.Eq_is_processed Z true;
     SearchRoute.Contains_aws_services Z ["lambda"; "s3"]] /\
  "lambda" <> "".
Proof.
  intros req. split; [reflexivity|].
  destruct (search_services_filter (fun _ => Some 1) Z (fun _ => 0) (fun _ => false)
              req ["lambda"; "s3"]) as (_ & _ & H).
  - apply elem_of_cons. right. apply elem_of_cons. by left.
  - apply (H "lambda"). apply elem_of_cons. by left.
Defined.
